(** * WuKongIM: config consensus node, channel reactor shard, stage workers

    A shallow embedding of three Go sources of the broker,

    - [pkg/cluster/cluster/clusterconfig/node.go]      (module [clusterconfig]),
    - [internal/reactor/channel/reactpr_sub.go]        (module [reactor]),
    - [internal/server/channel_reactor_process.go]     (module [server]),

    together with the properties of these functions that the design
    document states.  Fixed-width integers are [Z] with the wrap-around
    written out; Go slices are headers over a store of backing arrays;
    the collaborators (store, cluster, user reactor, deliver manager,
    clock, random source) are explicit parameters; a Go panic is the
    [Panic] outcome.  Log lines change no state and are left out, but
    for the logger's [Panic], which panics. *)

From Stdlib Require Import ZArith String List Bool Lia.
From stdpp Require Import base option list gmap strings pretty.

Local Open Scope string_scope.
Local Open Scope Z_scope.
Local Open Scope list_scope.

(** ** Outcomes: normal completion or a Go panic *)

Inductive outcome (A : Type) : Type :=
| Done (a : A)
| Panic (why : string).
Arguments Done {A} a.
Arguments Panic {A} why.

(** ** Fixed-width integers *)

Definition wrap_uint32 (x : Z) : Z := x mod 2 ^ 32.
Definition wrap_int64 (x : Z) : Z := (x + 2 ^ 63) mod 2 ^ 64 - 2 ^ 63.

(** ** Go slices

    A slice is a header (backing array, length, capacity); headers that
    were copied from one another share the backing array.  The store
    [heap] holds the contents of every backing array, at full capacity;
    an address is an index into the store.  All slices of the embedded
    code start at offset 0 of their array (none is re-sliced from the
    front). *)

Module GoSlice.
Section Slice.
Context {A : Type}.
(** The zero value of the element type, which fills fresh capacity. *)
Variable zero : A.
(** The runtime's growth policy: the capacity tried for a new backing
    array, from the old capacity and the length needed.  [append]
    never allocates less than it needs. *)
Variable growcap : nat -> nat -> nat.

Record slice : Type := mkSlice {
  ptr : option nat;
  len : nat;
  cap : nat
}.

Definition heap : Type := list (list A).

(** The nil slice: no array, length and capacity 0. *)
Definition nil_slice : slice := mkSlice None 0 0.

Definition backing (h : heap) (s : slice) : list A :=
  match ptr s with
  | None => []
  | Some p => default [] (h !! p)
  end.

(** The elements seen through the header: [s[0:len(s)]]. *)
Definition elems (h : heap) (s : slice) : list A :=
  take (len s) (backing h s).

(** [append(s, x)]: in place when the capacity allows it, and then the
    write is visible through every header on the same array; into a
    fresh array otherwise. *)
Definition append (h : heap) (s : slice) (x : A) : slice * heap :=
  match ptr s with
  | Some p =>
      if (len s <? cap s)%nat then
        (mkSlice (Some p) (S (len s)) (cap s),
         <[p := <[len s := x]> (backing h s)]> h)
      else
        let c := Nat.max (S (len s)) (growcap (cap s) (S (len s))) in
        (mkSlice (Some (length h)) (S (len s)) c,
         h ++ [elems h s ++ x :: replicate (c - S (len s)) zero])
  | None =>
      let c := Nat.max 1 (growcap 0 1) in
      (mkSlice (Some (length h)) 1 c,
       h ++ [x :: replicate (c - 1) zero])
  end.

(** A header is well formed in a store when its array is there, has
    the header's capacity, and the length does not exceed it. *)
Definition wf (h : heap) (s : slice) : Prop :=
  match ptr s with
  | None => len s = 0%nat /\ cap s = 0%nat
  | Some p => exists arr, h !! p = Some arr /\ length arr = cap s /\ (len s <= cap s)%nat
  end.
End Slice.
Arguments slice : clear implicits.
Arguments heap : clear implicits.
End GoSlice.

(** ** Package clusterconfig: [node.go] *)

Module clusterconfig.
Export GoSlice.

(** Modelled from the spec: the declaration of [RoleType] is not in
    [node.go]; the data model gives role ∈ {Follower, Candidate, Leader}. *)
Inductive RoleType : Type := RoleFollower | RoleCandidate | RoleLeader.

#[global] Instance RoleType_eq_dec : EqDecision RoleType.
Proof. solve_decision. Defined.

(** Modelled from the spec: the declaration of the message kinds is not
    in [node.go]; the interface section lists them. *)
Inductive EventType : Type :=
| EventPropose | EventHup | EventBeat
| EventAppendConfig | EventAppendConfigResp
| EventVoteRequest | EventVoteResponse
| EventSync | EventApply
| EventHeartbeat | EventHeartbeatResp.

#[global] Instance EventType_eq_dec : EqDecision EventType.
Proof. solve_decision. Defined.

(** Modelled from the spec: the declaration of [Message] is not in
    [node.go]; every message carries {type, from, to, term,
    configVersion} and may carry configData. *)
Record Message : Type := mkMessage {
  Type_ : EventType;
  From : Z;            (* uint64 *)
  To : Z;              (* uint64 *)
  Term : Z;            (* uint32 *)
  ConfigVersion : Z;   (* uint64 *)
  ConfigData : list Z  (* []byte *)
}.

(** The zero value of [Message]; the first message kind stands at 0. *)
Definition zeroMessage : Message := mkMessage EventPropose 0 0 0 0 [].

(** The fields of [Options] that [node.go] reads. *)
Record Options : Type := mkOptions {
  NodeId : Z;               (* uint64 *)
  OptConfigVersion : Z;     (* uint64, Options.ConfigVersion *)
  ElectionTimeoutTick : Z;  (* int *)
  HeartbeatTimeoutTick : Z  (* int *)
}.

(** [None], the absent node id. *)
Definition None_ : Z := 0.

(** type State struct *)
Record State : Type := mkState {
  leader : Z;   (* uint64 *)
  term : Z;     (* uint32 *)
  voteFor : Z   (* uint64 *)
}.

(** [tickFnc] and [stepFnc] hold one of the node's own methods; the
    field records which one. *)
Inductive TickFn : Type := tickElection | tickHeartbeat.
Inductive StepFn : Type := stepFollower | stepCandidate | stepLeader.

(** type Node struct *)
Record Node : Type := mkNode {
  opts : Options;
  state : State;
  leaderConfigVersion : Z;
  localConfigVersion : Z;
  committedConfigVersion : Z;
  appliedConfigVersion : Z;
  configData : list Z;
  role : RoleType;
  votes : gmap Z bool;
  electionElapsed : Z;
  heartbeatElapsed : Z;
  randomizedElectionTimeout : Z;
  nodeConfigVersionMap : gmap Z Z;
  tickFnc : option TickFn;
  stepFnc : option StepFn;
  msgs : slice
}.

(** type Ready struct *)
Record ReadyT : Type := mkReady { Messages : slice }.

(** Field assignments. *)
Definition set_msgs (s : slice) (n : Node) : Node :=
  mkNode (opts n) (state n) (leaderConfigVersion n) (localConfigVersion n)
    (committedConfigVersion n) (appliedConfigVersion n) (configData n) (role n)
    (votes n) (electionElapsed n) (heartbeatElapsed n)
    (randomizedElectionTimeout n) (nodeConfigVersionMap n) (tickFnc n)
    (stepFnc n) s.
Definition set_state (st : State) (n : Node) : Node :=
  mkNode (opts n) st (leaderConfigVersion n) (localConfigVersion n)
    (committedConfigVersion n) (appliedConfigVersion n) (configData n) (role n)
    (votes n) (electionElapsed n) (heartbeatElapsed n)
    (randomizedElectionTimeout n) (nodeConfigVersionMap n) (tickFnc n)
    (stepFnc n) (msgs n).
Definition set_role (r : RoleType) (n : Node) : Node :=
  mkNode (opts n) (state n) (leaderConfigVersion n) (localConfigVersion n)
    (committedConfigVersion n) (appliedConfigVersion n) (configData n) r
    (votes n) (electionElapsed n) (heartbeatElapsed n)
    (randomizedElectionTimeout n) (nodeConfigVersionMap n) (tickFnc n)
    (stepFnc n) (msgs n).
Definition set_votes (v : gmap Z bool) (n : Node) : Node :=
  mkNode (opts n) (state n) (leaderConfigVersion n) (localConfigVersion n)
    (committedConfigVersion n) (appliedConfigVersion n) (configData n) (role n)
    v (electionElapsed n) (heartbeatElapsed n)
    (randomizedElectionTimeout n) (nodeConfigVersionMap n) (tickFnc n)
    (stepFnc n) (msgs n).
Definition set_electionElapsed (e : Z) (n : Node) : Node :=
  mkNode (opts n) (state n) (leaderConfigVersion n) (localConfigVersion n)
    (committedConfigVersion n) (appliedConfigVersion n) (configData n) (role n)
    (votes n) e (heartbeatElapsed n)
    (randomizedElectionTimeout n) (nodeConfigVersionMap n) (tickFnc n)
    (stepFnc n) (msgs n).
Definition set_randomizedElectionTimeout (t : Z) (n : Node) : Node :=
  mkNode (opts n) (state n) (leaderConfigVersion n) (localConfigVersion n)
    (committedConfigVersion n) (appliedConfigVersion n) (configData n) (role n)
    (votes n) (electionElapsed n) (heartbeatElapsed n)
    t (nodeConfigVersionMap n) (tickFnc n)
    (stepFnc n) (msgs n).
Definition set_tickFnc (f : TickFn) (n : Node) : Node :=
  mkNode (opts n) (state n) (leaderConfigVersion n) (localConfigVersion n)
    (committedConfigVersion n) (appliedConfigVersion n) (configData n) (role n)
    (votes n) (electionElapsed n) (heartbeatElapsed n)
    (randomizedElectionTimeout n) (nodeConfigVersionMap n) (Some f)
    (stepFnc n) (msgs n).
Definition set_stepFnc (f : StepFn) (n : Node) : Node :=
  mkNode (opts n) (state n) (leaderConfigVersion n) (localConfigVersion n)
    (committedConfigVersion n) (appliedConfigVersion n) (configData n) (role n)
    (votes n) (electionElapsed n) (heartbeatElapsed n)
    (randomizedElectionTimeout n) (nodeConfigVersionMap n) (tickFnc n)
    (Some f) (msgs n).
Definition set_term (t : Z) (st : State) : State := mkState (leader st) t (voteFor st).
Definition set_voteFor (v : Z) (st : State) : State := mkState (leader st) (term st) v.
Definition set_leader (l : Z) (st : State) : State := mkState l (term st) (voteFor st).

(** func (r *lockedRand) Intn(n int) int

    [rand.Int(rand.Reader, max)] panics when [max <= 0] and otherwise
    returns a value in [[0, max)]; [drawn] is what the system's random
    source yields for this call. *)
Definition Intn (drawn : Z) (n : Z) : outcome Z :=
  if n <=? 0 then Panic "crypto/rand: argument to Int is 0 or less"
  else Done (drawn mod n).

(** func (n *Node) isLeader() bool *)
Definition isLeader (n : Node) : bool := bool_decide (role n = RoleLeader).

(** func (n *Node) HasReady() bool *)
Definition HasReady (n : Node) : bool :=
  if (0 <? len (msgs n))%nat then true
  else if negb (isLeader n)
          && negb (leaderConfigVersion n =? localConfigVersion n)
  then true
  else false.

(** func (n *Node) HasLeader() bool *)
Definition HasLeader (n : Node) : bool := negb (leader (state n) =? None_).

(** func (n *Node) resetRandomizedElectionTimeout() *)
Definition resetRandomizedElectionTimeout (drawn : Z) (n : Node) : outcome Node :=
  match Intn drawn (ElectionTimeoutTick (opts n)) with
  | Panic why => Panic why
  | Done r =>
      Done (set_randomizedElectionTimeout
              (wrap_int64 (ElectionTimeoutTick (opts n) + r)) n)
  end.

(** func (n *Node) reset(term uint32) *)
Definition reset (drawn : Z) (t : Z) (n : Node) : outcome Node :=
  let n := set_state (set_term t (state n)) n in
  let n := set_state (set_voteFor None_ (state n)) n in
  let n := set_votes ∅ n in
  let n := set_electionElapsed 0 n in
  resetRandomizedElectionTimeout drawn n.

(** func (n *Node) becomeFollower(term uint32, leader uint64) *)
Definition becomeFollower (drawn : Z) (t : Z) (ld : Z) (n : Node) : outcome Node :=
  let n := set_stepFnc stepFollower n in
  match reset drawn t n with
  | Panic why => Panic why
  | Done n =>
      let n := set_tickFnc tickElection n in
      let n := set_state (set_voteFor ld (state n)) n in
      let n := set_state (set_leader ld (state n)) n in
      Done (set_role RoleFollower n)
  end.

(** func (n *Node) becomeCandidate() *)
Definition becomeCandidate (drawn : Z) (n : Node) : outcome Node :=
  if bool_decide (role n = RoleLeader) then
    Panic "invalid transition [leader -> candidate]"
  else
    let n := set_stepFnc stepCandidate n in
    match reset drawn (wrap_uint32 (term (state n) + 1)) n with
    | Panic why => Panic why
    | Done n =>
        let n := set_tickFnc tickElection n in
        let n := set_state (set_voteFor (NodeId (opts n)) (state n)) n in
        let n := set_state (set_leader None_ (state n)) n in
        Done (set_role RoleCandidate n)
    end.

(** func (n *Node) becomeLeader() *)
Definition becomeLeader (drawn : Z) (n : Node) : outcome Node :=
  if bool_decide (role n = RoleFollower) then
    Panic "invalid transition [follower -> leader]"
  else
    let n := set_stepFnc stepLeader n in
    match reset drawn (term (state n)) n with
    | Panic why => Panic why
    | Done n =>
        let n := set_tickFnc tickHeartbeat n in
        let n := set_state (set_leader (NodeId (opts n)) (state n)) n in
        Done (set_role RoleLeader n)
    end.

(** func (n *Node) pastElectionTimeout() bool *)
Definition pastElectionTimeout (n : Node) : bool :=
  randomizedElectionTimeout n <=? electionElapsed n.

Section Outbox.
(** The runtime's slice growth policy. *)
Variable growcap : nat -> nat -> nat.
(** [newSync] and [newApply] are methods of [Node] declared in another
    file of the package; they build a message from the node's fields. *)
Variable newSync : Node -> Message.
Variable newApply : Node -> Message.

Definition append_msg := append zeroMessage growcap.

(** func (n *Node) send(m Message) *)
Definition send (m : Message) (n : Node) (h : heap Message) : Node * heap Message :=
  let '(s, h) := append_msg h (msgs n) m in
  (set_msgs s n, h).

(** func (n *Node) Ready() Ready *)
Definition Ready (n : Node) (h : heap Message) : ReadyT * Node * heap Message :=
  let rd := mkReady (msgs n) in
  let '(n, h) :=
    if negb (isLeader n) then
      if negb (leaderConfigVersion n =? localConfigVersion n) then
        let '(s, h) := append_msg h (msgs n) (newSync n) in
        (set_msgs s n, h)
      else (n, h)
    else (n, h) in
  let '(rd, h) :=
    if committedConfigVersion n >? appliedConfigVersion n then
      let '(s, h) := append_msg h (Messages rd) (newApply n) in
      (mkReady s, h)
    else (rd, h) in
  (rd, n, h).

(** The node and the store after the first conditional of [Ready]: a
    non-leader whose version differs from its leader's has staged a Sync
    message in its own outbox. *)
Definition after_sync (n : Node) (h : heap Message) : Node * heap Message :=
  if negb (isLeader n) && negb (leaderConfigVersion n =? localConfigVersion n)
  then send (newSync n) n h else (n, h).

(** func (n *Node) AcceptReady(rd Ready) *)
Definition AcceptReady (rd : ReadyT) (n : Node) : Node :=
  set_msgs nil_slice n.
End Outbox.

(** The messages a host obtains from a [Ready] value. *)
Definition ready_messages (h : heap Message) (rd : ReadyT) : list Message :=
  elems h (Messages rd).

(** The node's staged outbox, as a sequence. *)
Definition outbox (h : heap Message) (n : Node) : list Message :=
  elems h (msgs n).

End clusterconfig.

(** ** Package reactor (channel): [reactpr_sub.go] *)

Module reactor.

(** The fields of [reactor.ChannelAction] that [reactpr_sub.go] reads;
    [Body] stands for all the others. *)
Inductive ActionType : Type := ChannelActionClose | ChannelActionOther (code : Z).

Record ChannelAction (Body : Type) : Type := mkChannelAction {
  Type_ : ActionType;
  ChannelId : string;
  ChannelType : Z;   (* uint8 *)
  No : string;
  body : Body
}.
Arguments mkChannelAction {Body}.
Arguments Type_ {Body}.
Arguments ChannelId {Body}.
Arguments ChannelType {Body}.
Arguments No {Body}.
Arguments body {Body}.

(** The fields of [Channel] that [reactpr_sub.go] reads; [data] stands
    for the state that [step] works on. *)
Record Channel (Data : Type) : Type := mkChannel {
  key : string;
  no : string;
  data : Data
}.
Arguments mkChannel {Data}.
Arguments key {Data}.
Arguments no {Data}.
Arguments data {Data}.

Section Sub.
Context {Body Data : Type}.
(** [wkutil.ChannelToKey], of another package. *)
Variable ChannelToKey : string -> Z -> string.
(** [Channel.step], of another file of the package: it works on the
    channel it is called on; the error it returns is dropped by the
    caller. *)
Variable step : Channel Data -> ChannelAction Body -> Channel Data.

(** The fields of [reactorSub] that [handleReceivedActions] uses.  The
    registry [channels] holds the channels by key ([list.get] yields
    the channel or nil). *)
Record reactorSub : Type := mkReactorSub {
  channels : gmap string (Channel Data);
  actionQueue : list (ChannelAction Body)
}.

(** Modelled from the spec: [actionQueue.get] is declared in another
    file of the package; it drains the queue, handing out the queued
    actions in order and leaving the queue empty. *)
Definition actionQueue_get (q : list (ChannelAction Body))
    : list (ChannelAction Body) * list (ChannelAction Body) :=
  (q, []).

(** A call of [user.step(a)]: the registry key of the channel and the
    action. *)
Definition StepCall : Type := string * ChannelAction Body.

(** The body of the loop of [handleReceivedActions], over the registry
    and the record of the [step] calls made so far. *)
Definition receiveAction
    (st : gmap string (Channel Data) * list StepCall)
    (a : ChannelAction Body) : gmap string (Channel Data) * list StepCall :=
  let '(chs, calls) := st in
  let k := ChannelToKey (ChannelId a) (ChannelType a) in
  match chs !! k with
  | None => (chs, calls)                                  (* continue *)
  | Some user =>
      if negb (String.eqb (No a) "") && negb (String.eqb (No a) (no user))
      then (chs, calls)                                   (* continue *)
      else (<[k := step user a]> chs, calls ++ [(k, a)])
  end.

(** func (r *reactorSub) handleReceivedActions() bool *)
Definition handleReceivedActions (r : reactorSub)
    : bool * reactorSub * list StepCall :=
  let '(actions, queue) := actionQueue_get (actionQueue r) in
  if (length actions =? 0)%nat then (false, mkReactorSub (channels r) queue, [])
  else
    let '(chs, calls) := fold_left receiveAction actions (channels r, []) in
    (true, mkReactorSub chs queue, calls).
End Sub.
Arguments reactorSub : clear implicits.

End reactor.

(** ** Package wkproto (WuKongIMGoProto) and wkdb: the declarations the
    stage workers use *)

Module wkproto.
(** The reason codes that the stage workers name; [ReasonUnknown] is
    the zero value. *)
Inductive ReasonCode : Type :=
  | ReasonUnknown
  | ReasonSuccess
  | ReasonSubscriberNotExist
  | ReasonInBlacklist
  | ReasonNotInWhitelist
  | ReasonSystemError
  | ReasonBan
  | ReasonDisband.

#[global] Instance ReasonCode_eq_dec : EqDecision ReasonCode.
Proof. solve_decision. Defined.

Record Framer : Type := mkFramer {
  RedDot : bool;
  SyncOnce : bool;
  NoPersist : bool
}.

Record SendPacket : Type := mkSendPacket {
  sp_Framer : Framer;
  sp_ClientMsgNo : string;
  sp_ClientSeq : Z;      (* uint64 *)
  sp_ChannelID : string;
  sp_ChannelType : Z;    (* uint8 *)
  sp_Expire : Z;         (* uint32 *)
  sp_Payload : list Z    (* []byte *)
}.

Record RecvPacket : Type := mkRecvPacket {
  rp_Framer : Framer;
  rp_MessageID : Z;      (* int64 *)
  rp_ClientMsgNo : string;
  rp_ClientSeq : Z;
  rp_FromUID : string;
  rp_ChannelID : string;
  rp_ChannelType : Z;
  rp_Expire : Z;
  rp_Timestamp : Z;      (* int32 *)
  rp_Payload : list Z
}.

Record SendackPacket : Type := mkSendackPacket {
  sa_Framer : Framer;
  sa_MessageID : Z;
  sa_MessageSeq : Z;
  sa_ClientSeq : Z;
  sa_ClientMsgNo : string;
  sa_ReasonCode : ReasonCode
}.
End wkproto.

Module wkdb.
Record Message : Type := mkMessage { RecvPacket : wkproto.RecvPacket }.
End wkdb.

(** ** Package server: [channel_reactor_process.go] *)

Module server.

(** Go's [error]: nil or an error with its text. *)
Definition error : Type := option string.
Definition errors_New (s : string) : error := Some s.
Definition is_err (e : error) : bool :=
  match e with Some _ => true | None => false end.

Definition wrap_int32 (x : Z) : Z := (x + 2 ^ 31) mod 2 ^ 32 - 2 ^ 31.

(** Modelled from the spec: the declaration of [Reason] is in another
    file of the package; a response is tagged Success or Error.
    [ReasonNone] stands for a [Reason] field that a literal leaves out. *)
Inductive Reason : Type := ReasonNone | ReasonSuccess | ReasonError.

#[global] Instance Reason_eq_dec : EqDecision Reason.
Proof. solve_decision. Defined.

(** The action kinds that the stage workers send back. *)
Inductive ActionType : Type :=
| ChannelActionInitResp
| ChannelActionPayloadDecryptResp
| ChannelActionLeaderChange
| ChannelActionForwardResp
| ChannelActionPermissionCheckResp
| ChannelActionStorageResp
| ChannelActionSendackResp
| ChannelActionDeliverResp.

#[global] Instance ActionType_eq_dec : EqDecision ActionType.
Proof. solve_decision. Defined.

(** type ReactorChannelMessage: the fields that the stage workers use. *)
Record ReactorChannelMessage : Type := mkMsg {
  FromConnId : Z;      (* int64 *)
  FromUid : string;
  FromDeviceId : string;
  FromNodeId : Z;      (* uint64 *)
  SendPacket : wkproto.SendPacket;
  MessageId : Z;       (* int64 *)
  MessageSeq : Z;      (* uint32 *)
  IsEncrypt : bool;
  Index : Z            (* uint64 *)
}.

Definition set_MessageId (v : Z) (m : ReactorChannelMessage) : ReactorChannelMessage :=
  mkMsg (FromConnId m) (FromUid m) (FromDeviceId m) (FromNodeId m) (SendPacket m)
        v (MessageSeq m) (IsEncrypt m) (Index m).
Definition set_MessageSeq (v : Z) (m : ReactorChannelMessage) : ReactorChannelMessage :=
  mkMsg (FromConnId m) (FromUid m) (FromDeviceId m) (FromNodeId m) (SendPacket m)
        (MessageId m) v (IsEncrypt m) (Index m).

(** The channel descriptor [ch.info]. *)
Record ChannelInfo : Type := mkChannelInfo { Ban : bool; Disband : bool }.

(** type channel: the fields that the stage workers use. *)
Record channel : Type := mkChannel {
  key : string;
  channelId : string;
  channelType : Z;     (* uint8 *)
  uniqueNo : string;
  info : ChannelInfo
}.

(** type ChannelAction; a field that a worker leaves out of the literal
    holds its zero value. *)
Module ChannelAction.
Record t : Type := mk {
  UniqueNo : string;
  ActionType_ : ActionType;
  Index : Z;
  Reason_ : Reason;
  ReasonCode : wkproto.ReasonCode;
  LeaderId : Z;
  Messages : list ReactorChannelMessage
}.
End ChannelAction.

Module permissionReq.
Record t : Type := mk {
  fromUid : string;
  ch : channel;
  messages : list ReactorChannelMessage
}.
End permissionReq.

Module forwardReq.
Record t : Type := mk {
  ch : channel;
  leaderId : Z;
  messages : list ReactorChannelMessage
}.
End forwardReq.

Module storageReq.
Record t : Type := mk {
  ch : channel;
  messages : list ReactorChannelMessage
}.
End storageReq.

Module sendackReq.
Record t : Type := mk {
  ch : channel;
  messages : list ReactorChannelMessage
}.
End sendackReq.

Module deliverReq.
Record t : Type := mk {
  ch : channel;
  channelId : string;
  channelType : Z;
  channelKey : string;
  tagKey : string;
  messages : list ReactorChannelMessage
}.
End deliverReq.

(** type ChannelFowardReq *)
Record ChannelFowardReq : Type := mkChannelFowardReq {
  cf_ChannelId : string;
  cf_ChannelType : Z;
  cf_Messages : list ReactorChannelMessage
}.

(** type ForwardSendackPacket *)
Record ForwardSendackPacket : Type := mkForwardSendackPacket {
  fs_Uid : string;
  fs_DeviceId : string;
  fs_Sendack : wkproto.SendackPacket
}.

(** The result of one appended message: [LogId()] and [LogIndex()]. *)
Record ProposeResult : Type := mkProposeResult {
  LogId : Z;      (* uint64 *)
  LogIndex : Z    (* uint64 *)
}.

(** The answer to an inter-node request. *)
Record Response : Type := mkResponse {
  Status : Z;
  Body : string
}.

(** The options that the stage workers read. *)
Record Options : Type := mkOptions {
  WhitelistOffOfPerson : bool;
  SystemUID : string;
  Cluster_NodeId : Z
}.

(** *** Collaborators

    Every call that leaves the worker is a [Call]: the system-UID
    manager, the store ([r.s.store]), the cluster, the user reactor, the
    deliver manager, the codecs, the clock, and [sub.step], which hands
    an action back to the shard that owns the channel.  [resp] is what
    the call returns.  Deadlines are in seconds. *)
Inductive Call : Type :=
| CSystemUID (uid : string)
| CExistDenylist (channelId : string) (channelType : Z) (uid : string)
| CExistSubscriber (channelId : string) (channelType : Z) (uid : string)
| CHasAllowlist (channelId : string) (channelType : Z)
| CExistAllowlist (channelId : string) (channelType : Z) (uid : string)
| CAppendMessages (channelId : string) (channelType : Z) (msgs : list wkdb.Message)
| CNodeIsOnline (nodeId : Z)
| CLeaderIdOfChannel (deadline : Z) (channelId : string) (channelType : Z)
| CLeaderOfChannel (deadline : Z) (channelId : string) (channelType : Z)
| CRequestWithContext (deadline : Z) (nodeId : Z) (path : string) (data : string)
| CMarshalChannelFoward (req : ChannelFowardReq)
| CMarshalForwardSendack (packets : list ForwardSendackPacket)
| CWritePacketByConnId (uid : string) (connId : Z) (p : wkproto.SendackPacket)
| CDeliver (req : deliverReq.t)
| CNowUnix
| CStep (ch : channel) (a : ChannelAction.t).

Definition resp (c : Call) : Type :=
  match c with
  | CSystemUID _ => bool
  | CExistDenylist _ _ _ => bool * error
  | CExistSubscriber _ _ _ => bool * error
  | CHasAllowlist _ _ => bool * error
  | CExistAllowlist _ _ _ => bool * error
  | CAppendMessages _ _ _ => list ProposeResult * error
  | CNodeIsOnline _ => bool
  | CLeaderIdOfChannel _ _ _ => Z * error
  | CLeaderOfChannel _ _ _ => Z * error
  | CRequestWithContext _ _ _ _ => Response * error
  | CMarshalChannelFoward _ => string * error
  | CMarshalForwardSendack _ => string * error
  | CWritePacketByConnId _ _ _ => error
  | CDeliver _ => unit
  | CNowUnix => Z
  | CStep _ _ => unit
  end.

(** A lookup in the store [r.s.store]. *)
Definition is_store_call (c : Call) : bool :=
  match c with
  | CExistDenylist _ _ _ | CExistSubscriber _ _ _
  | CHasAllowlist _ _ | CExistAllowlist _ _ _
  | CAppendMessages _ _ _ => true
  | _ => false
  end.

(** An inter-node request on the given path. *)
Definition is_request_to (p : string) (c : Call) : bool :=
  match c with
  | CRequestWithContext _ _ path _ => String.eqb path p
  | _ => false
  end.

(** The batches handed to [store.AppendMessages], in order: channel id,
    channel type and messages. *)
Definition appended (log : list Call) : list (string * Z * list wkdb.Message) :=
  omap (fun c => match c with
                 | CAppendMessages cid ct msgs => Some (cid, ct, msgs)
                 | _ => None
                 end) log.

(** The actions handed back to the shards, in order. *)
Definition stepped (log : list Call) : list (channel * ChannelAction.t) :=
  omap (fun c => match c with CStep ch a => Some (ch, a) | _ => None end) log.

(** *** The worker monad

    A worker runs against the state [W] of its collaborators; [env]
    answers each call and moves that state.  The log keeps the calls in
    the order they were made.  A panic ends the run and keeps the state
    and the log reached. *)
Section Workers.
Context {W : Type}.
Variable env : forall c : Call, W -> resp c * W.
(** [r.opts] *)
Variable opts : Options.
(** [wkproto.ChannelTypeInfo], [wkproto.ChannelTypePerson] *)
Variable ChannelTypeInfo ChannelTypePerson : Z.
(** [errCodeNotIsChannelLeader], [proto.Status_OK] *)
Variable errCodeNotIsChannelLeader Status_OK : Z.

Definition M (A : Type) : Type := W -> list Call -> outcome A * W * list Call.

Definition ret {A} (a : A) : M A := fun w log => (Done a, w, log).

Definition bind {A B} (m : M A) (k : A -> M B) : M B :=
  fun w log =>
    match m w log with
    | (Done a, w', log') => k a w' log'
    | (Panic why, w', log') => (Panic why, w', log')
    end.

Definition call (c : Call) : M (resp c) :=
  fun w log => let '(r, w') := env c w in (Done r, w', log ++ [c]).

Definition panic {A} (why : string) : M A := fun w log => (Panic why, w, log).

Notation "x <- m ;; k" := (bind m (fun x => k))
  (at level 100, m at next level, right associativity).
#[warnings="-notation-incompatible-prefix"]
Notation "' pat <- m ;; k" := (bind m (fun x => match x with pat => k end))
  (at level 100, pat pattern, m at next level, right associativity).
Notation "m ;;; k" := (bind m (fun _ => k))
  (at level 100, right associativity).

(** [for _, x := range xs { body }] *)
Fixpoint forEach {A} (xs : list A) (body : A -> M unit) : M unit :=
  match xs with
  | [] => ret tt
  | x :: xs' => body x ;;; forEach xs' body
  end.

(** A loop that carries a value from one round to the next. *)
Fixpoint foldEach {A S} (xs : list A) (s : S) (body : S -> A -> M S) : M S :=
  match xs with
  | [] => ret s
  | x :: xs' => s' <- body s x ;; foldEach xs' s' body
  end.

(** [msgs[len(msgs)-1]]: the index is checked at run time. *)
Definition lastOf (msgs : list ReactorChannelMessage) : M ReactorChannelMessage :=
  match last msgs with
  | Some m => ret m
  | None => panic "runtime error: index out of range [-1]"
  end.

(** func (r *channelReactor) hasPermission(channelId, channelType, uid, ch)
      (wkproto.ReasonCode, error) *)
Definition hasPermission (channelId : string) (channelType : Z) (uid : string)
    (ch : channel) : M (wkproto.ReasonCode * error) :=
  if (channelType =? ChannelTypeInfo) || (channelType =? ChannelTypePerson) then
    ret (wkproto.ReasonSuccess, None)
  else
  systemAccount <- call (CSystemUID uid) ;;
  if systemAccount : bool then ret (wkproto.ReasonSuccess, None) else
  let channelInfo := info ch in
  if Ban channelInfo then ret (wkproto.ReasonBan, None) else
  if Disband channelInfo then ret (wkproto.ReasonDisband, None) else
  '(isDenylist, err) <- call (CExistDenylist channelId channelType uid) ;;
  if is_err err then ret (wkproto.ReasonSystemError, err) else
  if isDenylist : bool then ret (wkproto.ReasonInBlacklist, None) else
  '(isSubscriber, err) <- call (CExistSubscriber channelId channelType uid) ;;
  if is_err err then ret (wkproto.ReasonSystemError, err) else
  if negb isSubscriber then ret (wkproto.ReasonSubscriberNotExist, None) else
  if negb (WhitelistOffOfPerson opts) || negb (channelType =? ChannelTypePerson) then
    '(hasAllowlist, err) <- call (CHasAllowlist channelId channelType) ;;
    if is_err err then ret (wkproto.ReasonSystemError, err) else
    if hasAllowlist : bool then
      '(isAllowlist, err) <- call (CExistAllowlist channelId channelType uid) ;;
      if is_err err then ret (wkproto.ReasonSystemError, err) else
      if negb isAllowlist then ret (wkproto.ReasonNotInWhitelist, None)
      else ret (wkproto.ReasonSuccess, None)
    else ret (wkproto.ReasonSuccess, None)
  else ret (wkproto.ReasonSuccess, None).

(** func (r *channelReactor) processPermission(req *permissionReq) *)
Definition processPermission (req : permissionReq.t) : M unit :=
  let ch := permissionReq.ch req in
  '(reasonCode, err) <- hasPermission (channelId ch) (channelType ch)
                          (permissionReq.fromUid req) ch ;;
  if is_err err then
    lastMsg <- lastOf (permissionReq.messages req) ;;
    call (CStep ch (ChannelAction.mk
      (uniqueNo ch) ChannelActionPermissionCheckResp (Index lastMsg)
      ReasonError wkproto.ReasonUnknown 0 []))
  else
    let reason :=
      if bool_decide (reasonCode <> wkproto.ReasonSuccess)
      then ReasonError else ReasonSuccess in
    lastMsg <- lastOf (permissionReq.messages req) ;;
    call (CStep ch (ChannelAction.mk
      (uniqueNo ch) ChannelActionPermissionCheckResp (Index lastMsg)
      reason reasonCode 0 [])).

(** func (r *channelReactor) requestChannelFoward(nodeId, req) (bool, error) *)
Definition requestChannelFoward (nodeId : Z) (req : ChannelFowardReq) : M (bool * error) :=
  '(data, err) <- call (CMarshalChannelFoward req) ;;
  if is_err err then ret (false, err) else
  '(rsp, err) <- call (CRequestWithContext 5 nodeId "/wk/channelFoward" data) ;;
  if is_err err then ret (false, err) else
  if Status rsp =? errCodeNotIsChannelLeader then ret (true, None) else
  if negb (Status rsp =? Status_OK) then
    let err :=
      if (0 <? String.length (Body rsp))%nat then errors_New (Body rsp)
      else errors_New ("requestChannelFoward failed, status["
                         +:+ pretty (Status rsp) +:+ "] error") in
    ret (false, err)
  else ret (false, None).

(** func (r *channelReactor) handleForward(req *forwardReq) (uint64, error) *)
Definition handleForward (req : forwardReq.t) : M (Z * error) :=
  let ch := forwardReq.ch req in
  if (length (forwardReq.messages req) =? 0)%nat then ret (0, None) else
  if forwardReq.leaderId req =? 0 then ret (0, errors_New "leaderId is 0") else
  '(needChangeLeader, err) <-
     requestChannelFoward (forwardReq.leaderId req)
       (mkChannelFowardReq (channelId ch) (channelType ch) (forwardReq.messages req)) ;;
  if is_err err then ret (0, err) else
  if needChangeLeader : bool then
    '(nodeId, err) <- call (CLeaderOfChannel 5 (channelId ch) (channelType ch)) ;;
    if is_err err then ret (0, err)
    else ret (nodeId, errors_New "leader change")
  else ret (0, None).

(** One round of the loop of [processForward].  The variable [err] is
    declared before the loop, but every round assigns it before it
    reads it. *)
Definition processForward1 (req : forwardReq.t) : M unit :=
  let ch := forwardReq.ch req in
  online <- call (CNodeIsOnline (forwardReq.leaderId req)) ;;
  '(newLeaderId, err) <-
     (if negb online then
        '(newLeaderId, err) <-
           call (CLeaderIdOfChannel 1 (channelId ch) (channelType ch)) ;;
        if is_err err then ret (newLeaderId, err)
        else ret (newLeaderId, errors_New "leader change")
      else handleForward req) ;;
  let reason := if is_err err then ReasonError else ReasonSuccess in
  (if newLeaderId >? 0 then
     call (CStep ch (ChannelAction.mk
       (uniqueNo ch) ChannelActionLeaderChange 0 ReasonNone
       wkproto.ReasonUnknown newLeaderId []))
   else ret tt) ;;;
  call (CStep ch (ChannelAction.mk
    (uniqueNo ch) ChannelActionForwardResp 0 reason
    wkproto.ReasonUnknown 0 (forwardReq.messages req))).

(** func (r *channelReactor) processForward(reqs []*forwardReq) *)
Definition processForward (reqs : list forwardReq.t) : M unit :=
  forEach reqs processForward1.

(** The record that [processStorage] builds for the store from a
    message that is not encrypted. *)
Definition storeMessage (ch : channel) (now : Z) (msg : ReactorChannelMessage)
    : wkdb.Message :=
  let sendPacket := SendPacket msg in
  wkdb.mkMessage (wkproto.mkRecvPacket
    (wkproto.mkFramer
       (wkproto.RedDot (wkproto.sp_Framer sendPacket))
       (wkproto.SyncOnce (wkproto.sp_Framer sendPacket))
       (wkproto.NoPersist (wkproto.sp_Framer sendPacket)))
    (MessageId msg)
    (wkproto.sp_ClientMsgNo sendPacket)
    (wkproto.sp_ClientSeq sendPacket)
    (FromUid msg)
    (channelId ch)
    (wkproto.sp_ChannelType sendPacket)
    (wkproto.sp_Expire sendPacket)
    (wrap_int32 now)
    (wkproto.sp_Payload sendPacket)).

(** The first loop of [processStorage]: the messages for the store. *)
Definition collectStoreMessages (ch : channel) (msgs : list ReactorChannelMessage)
    : M (list wkdb.Message) :=
  foldEach msgs [] (fun sotreMessages msg =>
    if IsEncrypt msg then ret sotreMessages                    (* continue *)
    else
      now <- call CNowUnix ;;
      ret (sotreMessages ++ [storeMessage ch now msg])).

(** The inner loop over [req.messages] for one result: the first
    message whose [MessageId] is [logId] takes the pair, then [break]. *)
Fixpoint assignResult (logId logIndex : Z) (msgs : list ReactorChannelMessage)
    : list ReactorChannelMessage :=
  match msgs with
  | [] => []
  | msg :: rest =>
      if MessageId msg =? logId
      then set_MessageSeq logIndex (set_MessageId logId msg) :: rest
      else msg :: assignResult logId logIndex rest
  end.

(** The loop over the results of the store. *)
Definition copyResults (results : list ProposeResult)
    (msgs : list ReactorChannelMessage) : list ReactorChannelMessage :=
  fold_left (fun msgs result =>
               let logId := wrap_int64 (LogId result) in
               let logIndex := wrap_uint32 (LogIndex result) in
               assignResult logId logIndex msgs)
            results msgs.

(** One round of the loop of [processStorage]. *)
Definition processStorage1 (req : storageReq.t) : M unit :=
  let ch := storageReq.ch req in
  sotreMessages <- collectStoreMessages ch (storageReq.messages req) ;;
  '(results, err) <- call (CAppendMessages (channelId ch) (channelType ch) sotreMessages) ;;
  let messages :=
    if (0 <? length results)%nat then copyResults results (storageReq.messages req)
    else storageReq.messages req in
  let reason := if is_err err then ReasonError else ReasonSuccess in
  lastMsg <- lastOf messages ;;
  let lastIndex := Index lastMsg in
  call (CStep ch (ChannelAction.mk
    (uniqueNo ch) ChannelActionStorageResp lastIndex reason
    wkproto.ReasonUnknown 0 messages)).

(** func (r *channelReactor) processStorage(reqs []*storageReq) *)
Definition processStorage (reqs : list storageReq.t) : M unit :=
  forEach reqs processStorage1.

(** func (r *channelReactor) requestForwardSendack(nodeId, packets) error *)
Definition requestForwardSendack (nodeId : Z) (packets : list ForwardSendackPacket)
    : M error :=
  '(data, err) <- call (CMarshalForwardSendack packets) ;;
  if is_err err then ret err else
  '(rsp, err) <- call (CRequestWithContext 5 nodeId "/wk/forwardSendack" data) ;;
  if is_err err then ret err else
  if negb (Status rsp =? Status_OK) then
    if (0 <? String.length (Body rsp))%nat then ret (errors_New (Body rsp))
    else ret (errors_New ("requestForwardSendack failed, status["
                            +:+ pretty (Status rsp) +:+ "] error"))
  else ret None.

(** The loop of [processSendack] over the messages of one request; it
    carries the acknowledgements to forward, by node. *)
Definition sendackMessages (msgs : list ReactorChannelMessage)
    (byNode : gmap Z (list ForwardSendackPacket))
    : M (gmap Z (list ForwardSendackPacket)) :=
  foldEach msgs byNode (fun nodeFowardSendackPacketMap msg =>
    if String.eqb (FromUid msg) (SystemUID opts) then
      ret nodeFowardSendackPacketMap                           (* continue *)
    else
      let sendack := wkproto.mkSendackPacket
        (wkproto.sp_Framer (SendPacket msg)) (MessageId msg) (MessageSeq msg)
        (wkproto.sp_ClientSeq (SendPacket msg))
        (wkproto.sp_ClientMsgNo (SendPacket msg)) wkproto.ReasonSuccess in
      if FromNodeId msg =? Cluster_NodeId opts then
        call (CWritePacketByConnId (FromUid msg) (FromConnId msg) sendack) ;;;
        ret nodeFowardSendackPacketMap
      else
        let packets := default [] (nodeFowardSendackPacketMap !! FromNodeId msg) in
        let packets := packets ++
          [mkForwardSendackPacket (FromUid msg) (FromDeviceId msg) sendack] in
        ret (<[FromNodeId msg := packets]> nodeFowardSendackPacketMap)).

(** func (r *channelReactor) processSendack(reqs []*sendackReq)

    The last loop ranges over a Go map, whose order the language
    leaves open; here the nodes come in the order of [map_to_list]. *)
Definition processSendack (reqs : list sendackReq.t) : M unit :=
  nodeFowardSendackPacketMap <-
    foldEach reqs ∅ (fun byNode req =>
      let ch := sendackReq.ch req in
      byNode <- sendackMessages (sendackReq.messages req) byNode ;;
      lastMsg <- lastOf (sendackReq.messages req) ;;
      call (CStep ch (ChannelAction.mk
        (uniqueNo ch) ChannelActionSendackResp (Index lastMsg) ReasonSuccess
        wkproto.ReasonUnknown 0 [])) ;;;
      ret byNode) ;;
  forEach (map_to_list nodeFowardSendackPacketMap) (fun '(nodeId, packets) =>
    requestForwardSendack nodeId packets ;;; ret tt).

(** func (r *channelReactor) handleDeliver(req *deliverReq) *)
Definition handleDeliver (req : deliverReq.t) : M unit := call (CDeliver req).

(** func (r *channelReactor) processDeliver(reqs []*deliverReq) *)
Definition processDeliver (reqs : list deliverReq.t) : M unit :=
  forEach reqs (fun req =>
    let ch := deliverReq.ch req in
    handleDeliver req ;;;
    let reason := ReasonSuccess in
    lastMsg <- lastOf (deliverReq.messages req) ;;
    let lastIndex := Index lastMsg in
    call (CStep ch (ChannelAction.mk
      (uniqueNo ch) ChannelActionDeliverResp lastIndex reason
      wkproto.ReasonUnknown 0 []))).

(** Running a worker from a state of the collaborators, with an empty
    log. *)
Definition run {A} (m : M A) (w : W) : outcome A * W * list Call := m w [].
End Workers.
Arguments M : clear implicits.

(** A computation that always completes. *)
Definition completes {W A} (m : M W A) : Prop :=
  forall w log, exists a w' log', m w log = (Done a, w', log').

(** A computation that either completes or panics for the given cause. *)
Definition completes_or {W A} (why : string) (m : M W A) : Prop :=
  forall w log, (exists a w' log', m w log = (Done a, w', log'))
                \/ (m w log).1.1 = Panic why.

(** A computation that panics for the given cause, wherever it starts. *)
Definition panics {W A} (why : string) (m : M W A) : Prop :=
  forall w log, (m w log).1.1 = Panic why.

(** The panic of an index expression [s[len(s)-1]] on an empty [s]. *)
Definition index_out_of_range : string := "runtime error: index out of range [-1]".

(** *** The permission rules as the design document lists them

    What the rules speak of: whether the sender is a configured system
    UID, is on the denylist, is a subscriber, whether the channel has
    any allowlist entry, and whether the sender is on the allowlist. *)
Record Facts : Type := mkFacts {
  systemUID : bool;
  onDenylist : bool;
  isSubscriber : bool;
  anyAllowlist : bool;
  onAllowlist : bool
}.

(** Rules (1) to (7), each with its condition and its reason code. *)
Definition permission_rules (opts : Options) (ChannelTypeInfo ChannelTypePerson : Z)
    (channelType : Z) (ch : channel) (f : Facts) : list (bool * wkproto.ReasonCode) :=
  [ ((channelType =? ChannelTypeInfo) || (channelType =? ChannelTypePerson),
       wkproto.ReasonSuccess);
    (systemUID f, wkproto.ReasonSuccess);
    (Ban (info ch), wkproto.ReasonBan);
    (Disband (info ch), wkproto.ReasonDisband);
    (onDenylist f, wkproto.ReasonInBlacklist);
    (negb (isSubscriber f), wkproto.ReasonSubscriberNotExist);
    ((negb (channelType =? ChannelTypePerson) || negb (WhitelistOffOfPerson opts))
       && anyAllowlist f && negb (onAllowlist f),
       wkproto.ReasonNotInWhitelist) ].

(** The reason code of the first rule that applies; rule (8) otherwise. *)
Definition first_applicable (rules : list (bool * wkproto.ReasonCode)) : wkproto.ReasonCode :=
  match List.find fst rules with
  | Some (_, code) => code
  | None => wkproto.ReasonSuccess
  end.

(** The collaborators answer according to the facts, without an error,
    in whatever state they are. *)
Definition answers {W : Type} (env : forall c : Call, W -> resp c * W)
    (channelId : string) (channelType : Z) (uid : string) (f : Facts) : Prop :=
  forall w : W,
    (env (CSystemUID uid) w).1 = systemUID f
    /\ (env (CExistDenylist channelId channelType uid) w).1 = (onDenylist f, None)
    /\ (env (CExistSubscriber channelId channelType uid) w).1 = (isSubscriber f, None)
    /\ (env (CHasAllowlist channelId channelType) w).1 = (anyAllowlist f, None)
    /\ (env (CExistAllowlist channelId channelType uid) w).1 = (onAllowlist f, None).

(** The reason codes of a denial. *)
Definition is_denial (code : wkproto.ReasonCode) : bool :=
  match code with
  | wkproto.ReasonBan | wkproto.ReasonDisband | wkproto.ReasonInBlacklist
  | wkproto.ReasonSubscriberNotExist | wkproto.ReasonNotInWhitelist => true
  | _ => false
  end.

(** A record for the store stems from a message: same id, sender and
    packet fields, stamped with some time. *)
Definition stored_from (ch : channel) (msg : ReactorChannelMessage)
    (s : wkdb.Message) : Prop :=
  exists now, s = storeMessage ch now msg.

(** The messages that are not, or no longer, encrypted. *)
Definition notEncrypted (msg : ReactorChannelMessage) : bool := negb (IsEncrypt msg).

(** A batch handed to the store is the batch of a request: it names the
    request's channel and holds one record for each message of the
    request that is not encrypted, in the request's order. *)
Definition appended_for (req : storageReq.t)
    (e : string * Z * list wkdb.Message) : Prop :=
  e.1.1 = channelId (storageReq.ch req)
  /\ e.1.2 = channelType (storageReq.ch req)
  /\ Forall2 (stored_from (storageReq.ch req))
             (List.filter notEncrypted (storageReq.messages req)) e.2.

(** A message after it took the pair of a result. *)
Definition with_result (logId logIndex : Z) (msg : ReactorChannelMessage)
    : ReactorChannelMessage :=
  set_MessageSeq logIndex (set_MessageId logId msg).

(** The integer conversions of [processStorage]: [int64(result.LogId())]
    and [uint32(result.LogIndex())]. *)
Definition logId_of (result : ProposeResult) : Z := wrap_int64 (LogId result).
Definition logIndex_of (result : ProposeResult) : Z := wrap_uint32 (LogIndex result).
End server.

(** ** Concrete nodes, channels and collaborators *)

Module scenarios.
Import clusterconfig.

(** The documented defaults: election timeout 10 ticks, heartbeat 1. *)
Definition opts0 : Options := mkOptions 1 0 10 1.

(** A node with an empty (nil) outbox, in term 3, node 2 its leader. *)
Definition node0 (r : RoleType) (leaderV localV committedV appliedV : Z) : Node :=
  mkNode opts0 (mkState 2 3 2) leaderV localV committedV appliedV [] r ∅ 0 0 10 ∅
         (Some tickElection) (Some stepFollower) nil_slice.

(** Modelled from the spec: [newSync] is declared in another file of the
    package; it is the Sync message by which a non-leader requests the
    newer config from its leader. *)
Definition newSync (n : Node) : Message :=
  mkMessage EventSync (NodeId (opts n)) (leader (state n)) (term (state n))
            (localConfigVersion n) [].

(** Modelled from the spec: [newApply] is declared in another file of
    the package; it is the Apply message for the newly committed
    version. *)
Definition newApply (n : Node) : Message :=
  mkMessage EventApply (NodeId (opts n)) (NodeId (opts n)) (term (state n))
            (committedConfigVersion n) [].

(** Capacity doubling, as the Go runtime grows small slices. *)
Definition growcap (old needed : nat) : nat := (2 * old)%nat.

Definition beat (v : Z) : Message := mkMessage EventHeartbeat 1 2 3 v [].

(** A leader whose committed version 7 is ahead of its applied version 5;
    nothing is staged. *)
Definition leader_commit_pending : Node := node0 RoleLeader 7 7 7 5.

(** A follower that knows of the leader's version 6 and holds version 5;
    nothing is staged and nothing awaits application. *)
Definition follower_behind : Node := node0 RoleFollower 6 5 5 5.

(** A follower behind its leader, with a commit to apply, after three
    [send]s from an empty outbox: length 3 in an array of capacity 4. *)
Definition follower_three_staged : Node * heap Message :=
  let n := node0 RoleFollower 6 5 5 4 in
  let '(n, h) := send growcap (beat 1) n [] in
  let '(n, h) := send growcap (beat 2) n h in
  send growcap (beat 3) n h.

Definition candidate0 : Node := node0 RoleCandidate 5 5 5 5.

(** A shard with one channel, of incarnation "n1"; [step] counts the
    actions applied to a channel. *)
Definition ChannelToKey (channelId : string) (channelType : Z) : string :=
  channelId +:+ "-" +:+ pretty channelType.

Definition count_step (ch : reactor.Channel nat) (a : reactor.ChannelAction unit)
    : reactor.Channel nat :=
  reactor.mkChannel (reactor.key ch) (reactor.no ch) (S (reactor.data ch)).

Definition group1 : reactor.Channel nat := reactor.mkChannel "g1-2" "n1" 0%nat.

Definition action_for_group1 (no : string) : reactor.ChannelAction unit :=
  reactor.mkChannelAction (reactor.ChannelActionOther 7) "g1" 2 no tt.

Definition shard_with (queue : list (reactor.ChannelAction unit))
    : reactor.reactorSub unit nat :=
  reactor.mkReactorSub {[ "g1-2" := group1 ]} queue.

(** Collaborators without a state of their own: every call is answered
    from a table. *)
Definition env_of (answer : forall c : server.Call, server.resp c)
    : forall c : server.Call, unit -> server.resp c * unit :=
  fun c _ => (answer c, tt).

(** A table for a store in which the sender is a subscriber on no list,
    a cluster in which the given nodes are online, leader resolution
    answering [resolved], and a store that numbers what it appends. *)
Definition table (online : Z -> bool) (resolved : Z * server.error)
    (c : server.Call) : server.resp c :=
  match c return server.resp c with
  | server.CSystemUID _ => false
  | server.CExistDenylist _ _ _ => (false, None)
  | server.CExistSubscriber _ _ _ => (true, None)
  | server.CHasAllowlist _ _ => (false, None)
  | server.CExistAllowlist _ _ _ => (false, None)
  | server.CAppendMessages _ _ ms =>
      (imap (fun i m => server.mkProposeResult
                          (wkproto.rp_MessageID (wkdb.RecvPacket m))
                          (100 + Z.of_nat i)) ms, None)
  | server.CNodeIsOnline nodeId => online nodeId
  | server.CLeaderIdOfChannel _ _ _ => resolved
  | server.CLeaderOfChannel _ _ _ => resolved
  | server.CRequestWithContext _ _ _ _ => (server.mkResponse 0 "", None)
  | server.CMarshalChannelFoward _ => ("", None)
  | server.CMarshalForwardSendack _ => ("", None)
  | server.CWritePacketByConnId _ _ _ => None
  | server.CDeliver _ => tt
  | server.CNowUnix => 1700000000
  | server.CStep _ _ => tt
  end.

Definition env_online : forall c : server.Call, unit -> server.resp c * unit :=
  env_of (table (fun _ => true) (0, None)).

(** Node 2 is offline and leader resolution fails. *)
Definition env_leader_lost : forall c : server.Call, unit -> server.resp c * unit :=
  env_of (table (fun nodeId => negb (nodeId =? 2)) (0, Some "context deadline exceeded")).

(** Node 2 is offline and the channel's leader is resolved to node 3. *)
Definition env_leader_moved : forall c : server.Call, unit -> server.resp c * unit :=
  env_of (table (fun nodeId => negb (nodeId =? 2)) (3, None)).

Definition server_opts : server.Options := server.mkOptions false "____" 1.

(** [wkproto.ChannelTypePerson] = 1, [wkproto.ChannelTypeGroup] = 2,
    [wkproto.ChannelTypeInfo] = 6. *)
Definition ChannelTypePerson : Z := 1.
Definition ChannelTypeGroup : Z := 2.
Definition ChannelTypeInfo : Z := 6.

Definition packet0 : wkproto.SendPacket :=
  wkproto.mkSendPacket (wkproto.mkFramer true false false) "c1" 1 "g1" 2 0 [104; 105].

Definition message (id index : Z) (encrypted : bool) : server.ReactorChannelMessage :=
  server.mkMsg 9 "u1" "d1" 1 packet0 id 0 encrypted index.

(** A group channel, and the same channel banned. *)
Definition group (banned : bool) : server.channel :=
  server.mkChannel "g1-2" "g1" ChannelTypeGroup "n1" (server.mkChannelInfo banned false).

Definition facts0 : server.Facts := server.mkFacts false false true false false.

End scenarios.

(** * Properties *)

(** ** Slices *)

Section SliceFacts.
Context {A : Type} (zero : A) (growcap : nat -> nat -> nat).
Implicit Types (h : GoSlice.heap A) (s : GoSlice.slice) (x : A).
Import GoSlice.

Lemma elems_length h s : wf h s -> length (elems h s) = len s.
Proof.
  unfold wf, elems, backing. destruct (ptr s) as [p|].
  - intros (arr & -> & Hlen & Hle). simpl. rewrite length_take. lia.
  - intros [-> _]. reflexivity.
Qed.

(** Appending shows the old elements followed by the new one through
    the header that [append] returns. *)
Lemma append_elems h s x :
  wf h s ->
  elems (append zero growcap h s x).2 (append zero growcap h s x).1
  = elems h s ++ [x].
Proof.
  intros Hwf. pose proof (elems_length h s Hwf) as Hel.
  unfold append. unfold wf in Hwf. unfold elems, backing, heap in *.
  destruct (ptr s) as [p|] eqn:Hp.
  - destruct Hwf as (arr & Harr & Hlen & Hle). rewrite Harr in *. simpl in *.
    destruct (len s <? cap s)%nat eqn:Hlt.
    + apply Nat.ltb_lt in Hlt. simpl.
      rewrite list_lookup_insert_eq by (apply lookup_lt_Some in Harr; lia).
      simpl. erewrite take_S_r.
      * rewrite take_insert_ge by lia. reflexivity.
      * apply list_lookup_insert_eq. lia.
    + simpl. rewrite lookup_app_r by lia. rewrite Nat.sub_diag. simpl.
      rewrite take_app, Hel. rewrite (take_ge (take (len s) arr)) by lia.
      replace (S (len s) - len s)%nat with 1%nat by lia. reflexivity.
  - destruct Hwf as [Hl Hc]. rewrite Hl. simpl.
    rewrite lookup_app_r by lia. rewrite Nat.sub_diag. reflexivity.
Qed.

(** Appending leaves what the old header shows as it was: an append in
    place writes past the old length, and a fresh array leaves the old
    one alone. *)
Lemma append_old_elems h s x :
  wf h s -> elems (append zero growcap h s x).2 s = elems h s.
Proof.
  intros Hwf. unfold append. unfold wf in Hwf. unfold elems, backing, heap in *.
  destruct (ptr s) as [p|] eqn:Hp; [|reflexivity].
  destruct Hwf as (arr & Harr & Hlen & Hle). rewrite Harr. simpl.
  destruct (len s <? cap s)%nat eqn:Hlt; simpl.
  - rewrite list_lookup_insert_eq by (apply lookup_lt_Some in Harr; lia).
    simpl. apply take_insert_ge. lia.
  - rewrite lookup_app_l by (apply lookup_lt_Some in Harr; lia).
    rewrite Harr. reflexivity.
Qed.

Lemma append_old_wf h s x :
  wf h s -> wf (append zero growcap h s x).2 s.
Proof.
  intros Hwf. unfold append. unfold wf in *. unfold backing, heap in *.
  destruct (ptr s) as [p|] eqn:Hp; [|exact Hwf].
  destruct Hwf as (arr & Harr & Hlen & Hle). rewrite Harr. simpl.
  destruct (len s <? cap s)%nat eqn:Hlt; simpl.
  - eexists. split; [apply list_lookup_insert_eq; apply lookup_lt_Some in Harr; lia|].
    rewrite length_insert. lia.
  - exists arr. split; [|lia].
    rewrite lookup_app_l by (apply lookup_lt_Some in Harr; lia). exact Harr.
Qed.
End SliceFacts.

(** ** clusterconfig: [HasReady], [Ready], [AcceptReady] *)

Section ReadyFacts.
Import clusterconfig.
Variable growcap : nat -> nat -> nat.
Variables newSync newApply : Node -> Message.

(** [HasReady] looks at the outbox and at the version gap to the
    leader, and at nothing else. *)
Lemma HasReady_true_iff (n : Node) :
  HasReady n = true <->
  (0 < len (msgs n))%nat \/
  (role n <> RoleLeader /\ leaderConfigVersion n <> localConfigVersion n).
Proof.
  unfold HasReady, isLeader.
  destruct (0 <? len (msgs n))%nat eqn:Hlen.
  - apply Nat.ltb_lt in Hlen. split; [intros _; left; exact Hlen | reflexivity].
  - apply Nat.ltb_ge in Hlen.
    destruct (bool_decide_reflect (role n = RoleLeader)) as [Hr|Hr]; simpl.
    + split; [discriminate | intros [H|[H _]]; [lia | contradiction]].
    + destruct (Z.eqb_spec (leaderConfigVersion n) (localConfigVersion n)) as [He|He]; simpl.
      * split; [discriminate | intros [H|[_ H]]; [lia | contradiction]].
      * split; [intros _; right; split; assumption | reflexivity].
Qed.

Lemma Ready_node (n : Node) (h : heap Message) :
  (Ready growcap newSync newApply n h).1.2 = (after_sync growcap newSync n h).1.
Proof.
  unfold Ready, after_sync, send.
  destruct (negb (isLeader n)); simpl;
    [destruct (negb (leaderConfigVersion n =? localConfigVersion n)); simpl|].
  - destruct (append_msg growcap h (msgs n) (newSync n)) as [s1 h1]; simpl.
    destruct (committedConfigVersion n >? appliedConfigVersion n); simpl;
      [destruct (append_msg growcap h1 (msgs n) _); reflexivity | reflexivity].
  - destruct (committedConfigVersion n >? appliedConfigVersion n); simpl;
      [destruct (append_msg growcap h (msgs n) _); reflexivity | reflexivity].
  - destruct (committedConfigVersion n >? appliedConfigVersion n); simpl;
      [destruct (append_msg growcap h (msgs n) _); reflexivity | reflexivity].
Qed.

(** What the returned [Ready] holds: the staged outbox, then the Apply
    message when a commit awaits application.  The Sync message goes
    to the node's own outbox and not to the value returned. *)
Lemma Ready_messages (n : Node) (h : heap Message) :
  wf h (msgs n) ->
  ready_messages (Ready growcap newSync newApply n h).2
                 (Ready growcap newSync newApply n h).1.1
  = outbox h n ++
    (if committedConfigVersion n >? appliedConfigVersion n
     then [newApply (after_sync growcap newSync n h).1] else []).
Proof.
  intros Hwf. unfold ready_messages, outbox, Ready, after_sync, send, append_msg.
  destruct (negb (isLeader n)); simpl;
    [destruct (negb (leaderConfigVersion n =? localConfigVersion n)); simpl|].
  - pose proof (append_old_elems zeroMessage growcap h (msgs n) (newSync n) Hwf) as Hold.
    pose proof (append_old_wf zeroMessage growcap h (msgs n) (newSync n) Hwf) as Hwf1.
    destruct (append zeroMessage growcap h (msgs n) (newSync n)) as [s1 h1]; simpl in *.
    destruct (committedConfigVersion n >? appliedConfigVersion n); simpl.
    + pose proof (append_elems zeroMessage growcap h1 (msgs n)
                    (newApply (set_msgs s1 n)) Hwf1) as Hnew.
      destruct (append zeroMessage growcap h1 (msgs n) _) as [s2 h2]; simpl in *.
      rewrite Hnew, Hold. reflexivity.
    + rewrite Hold, app_nil_r. reflexivity.
  - destruct (committedConfigVersion n >? appliedConfigVersion n); simpl.
    + pose proof (append_elems zeroMessage growcap h (msgs n) (newApply n) Hwf) as Hnew.
      destruct (append zeroMessage growcap h (msgs n) _) as [s2 h2]; simpl in *.
      exact Hnew.
    + rewrite app_nil_r. reflexivity.
  - destruct (committedConfigVersion n >? appliedConfigVersion n); simpl.
    + pose proof (append_elems zeroMessage growcap h (msgs n) (newApply n) Hwf) as Hnew.
      destruct (append zeroMessage growcap h (msgs n) _) as [s2 h2]; simpl in *.
      exact Hnew.
    + rewrite app_nil_r. reflexivity.
Qed.

End ReadyFacts.

(** C1.  [HasReady] does not look at the commit that awaits application:
    on a leader with an empty outbox, committed version 7 and applied
    version 5, it answers false, while [Ready] on the same node returns
    the Apply message for version 7. *)
Theorem HasReady_ignores_pending_commit :
  let n := scenarios.leader_commit_pending in
  clusterconfig.outbox [] n = []
  /\ (clusterconfig.committedConfigVersion n >? clusterconfig.appliedConfigVersion n) = true
  /\ clusterconfig.HasReady n = false
  /\ clusterconfig.ready_messages
       (clusterconfig.Ready scenarios.growcap scenarios.newSync scenarios.newApply n []).2
       (clusterconfig.Ready scenarios.growcap scenarios.newSync scenarios.newApply n []).1.1
     = [clusterconfig.mkMessage clusterconfig.EventApply 1 1 3 7 []].
Proof. vm_compute. repeat split; reflexivity. Qed.

(** C2.  [Ready] appends the Sync message to the node's outbox and not
    to the value it returns: a follower that holds version 5 and knows
    of its leader's version 6, with nothing staged, gets an empty
    [Ready]; the Sync message sits in the outbox, where [AcceptReady]
    drops it. *)
Theorem Ready_leaves_out_sync :
  let n := scenarios.follower_behind in
  let r := clusterconfig.Ready scenarios.growcap scenarios.newSync scenarios.newApply n [] in
  clusterconfig.isLeader n = false
  /\ (clusterconfig.leaderConfigVersion n =? clusterconfig.localConfigVersion n) = false
  /\ clusterconfig.ready_messages r.2 r.1.1 = []
  /\ clusterconfig.outbox r.2 r.1.2 = [scenarios.newSync n]
  /\ clusterconfig.outbox r.2 (clusterconfig.AcceptReady r.1.1 r.1.2) = [].
Proof. vm_compute. repeat split; reflexivity. Qed.

(** With spare capacity in the outbox's array the two appends of [Ready]
    write the same slot: the Apply message, appended through the
    returned header, replaces the Sync message in the node's outbox. *)
Lemma Ready_apply_overwrites_sync :
  let '(n, h) := scenarios.follower_three_staged in
  let r := clusterconfig.Ready scenarios.growcap scenarios.newSync scenarios.newApply n h in
  (GoSlice.len (clusterconfig.msgs n), GoSlice.cap (clusterconfig.msgs n)) = (3%nat, 4%nat)
  /\ clusterconfig.ready_messages r.2 r.1.1
     = [scenarios.beat 1; scenarios.beat 2; scenarios.beat 3; scenarios.newApply n]
  /\ clusterconfig.outbox r.2 r.1.2
     = [scenarios.beat 1; scenarios.beat 2; scenarios.beat 3; scenarios.newApply n].
Proof. vm_compute. repeat split; reflexivity. Qed.

(** ** clusterconfig: role transitions *)

Section Transitions.
Import clusterconfig.

(** With a positive election timeout the random draw succeeds, and so
    does [reset]. *)
Lemma reset_done (drawn t : Z) (n : Node) :
  0 < ElectionTimeoutTick (opts n) ->
  exists n', reset drawn t n = Done n' /\ role n' = role n /\ opts n' = opts n
             /\ stepFnc n' = stepFnc n /\ tickFnc n' = tickFnc n
             /\ state n' = mkState (leader (state n)) t None_
             /\ votes n' = ∅ /\ electionElapsed n' = 0.
Proof.
  intros Hpos. unfold reset, resetRandomizedElectionTimeout, Intn. simpl.
  destruct (Z.leb_spec (ElectionTimeoutTick (opts n)) 0) as [H|H]; [lia|].
  eexists. split; [reflexivity|]. simpl. repeat split; reflexivity.
Qed.

(** Without one, the draw itself panics: every transition aborts,
    whatever the role. *)
Lemma reset_panics (drawn t : Z) (n : Node) :
  ElectionTimeoutTick (opts n) <= 0 ->
  reset drawn t n = Panic "crypto/rand: argument to Int is 0 or less".
Proof.
  intros Hle. unfold reset, resetRandomizedElectionTimeout, Intn. simpl.
  destruct (Z.leb_spec (ElectionTimeoutTick (opts n)) 0) as [H|H]; [reflexivity|lia].
Qed.

(** The drawn timeout lies in [[ElectionTimeoutTick, 2 * ElectionTimeoutTick)]
    as long as the sum fits an int. *)
Lemma reset_timeout_range (drawn t : Z) (n n' : Node) :
  0 < ElectionTimeoutTick (opts n) < 2 ^ 62 ->
  reset drawn t n = Done n' ->
  ElectionTimeoutTick (opts n) <= randomizedElectionTimeout n'
    < 2 * ElectionTimeoutTick (opts n).
Proof.
  intros [Hpos Hlt]. unfold reset, resetRandomizedElectionTimeout, Intn. simpl.
  destruct (Z.leb_spec (ElectionTimeoutTick (opts n)) 0) as [H|H]; [lia|].
  intros [= <-]. simpl. unfold wrap_int64.
  pose proof (Z.mod_pos_bound drawn (ElectionTimeoutTick (opts n)) Hpos) as Hr.
  rewrite Z.mod_small by lia. lia.
Qed.

(** C9.  [becomeLeader] aborts on its forbidden-transition check exactly
    when the node is a follower, and [becomeCandidate] exactly when the
    node is a leader; from every other role the transition completes and
    installs the new role, step function and tick function.  Completion
    needs a positive [ElectionTimeoutTick], as the random draw of
    [reset] does. *)
Theorem become_aborts_iff_forbidden (drawn : Z) (n : Node) :
  0 < ElectionTimeoutTick (opts n) ->
  (role n = RoleFollower ->
     becomeLeader drawn n = Panic "invalid transition [follower -> leader]")
  /\ (role n = RoleLeader ->
     becomeCandidate drawn n = Panic "invalid transition [leader -> candidate]")
  /\ (role n <> RoleFollower ->
     exists n', becomeLeader drawn n = Done n' /\ role n' = RoleLeader
                /\ stepFnc n' = Some stepLeader /\ tickFnc n' = Some tickHeartbeat
                /\ leader (state n') = NodeId (opts n)
                /\ term (state n') = term (state n))
  /\ (role n <> RoleLeader ->
     exists n', becomeCandidate drawn n = Done n' /\ role n' = RoleCandidate
                /\ stepFnc n' = Some stepCandidate /\ tickFnc n' = Some tickElection
                /\ voteFor (state n') = NodeId (opts n)
                /\ leader (state n') = None_
                /\ term (state n') = wrap_uint32 (term (state n) + 1)).
Proof.
  intros Hpos. repeat split.
  - intros Hr. unfold becomeLeader. rewrite bool_decide_eq_true_2 by exact Hr. reflexivity.
  - intros Hr. unfold becomeCandidate. rewrite bool_decide_eq_true_2 by exact Hr. reflexivity.
  - intros Hr. unfold becomeLeader. rewrite bool_decide_eq_false_2 by exact Hr.
    cbv zeta.
    destruct (reset_done drawn (term (state (set_stepFnc stepLeader n)))
                (set_stepFnc stepLeader n) Hpos)
      as (n1 & -> & Hrole & Hopts & Hstep & Htick & Hstate & _).
    eexists. split; [reflexivity|]. simpl. rewrite Hopts, Hstep, Hstate.
    repeat split; reflexivity.
  - intros Hr. unfold becomeCandidate. rewrite bool_decide_eq_false_2 by exact Hr.
    cbv zeta.
    destruct (reset_done drawn (wrap_uint32 (term (state (set_stepFnc stepCandidate n)) + 1))
                (set_stepFnc stepCandidate n) Hpos)
      as (n1 & -> & Hrole & Hopts & Hstep & Htick & Hstate & _).
    eexists. split; [reflexivity|]. simpl. rewrite Hopts, Hstep, Hstate.
    repeat split; reflexivity.
Qed.
End Transitions.

(** The transitions of a candidate with the default timeout of 10 ticks. *)
Lemma become_aborts_iff_forbidden_witness :
  0 < clusterconfig.ElectionTimeoutTick (clusterconfig.opts scenarios.candidate0)
  /\ (exists n', clusterconfig.becomeLeader 13 scenarios.candidate0 = Done n'
                 /\ clusterconfig.role n' = clusterconfig.RoleLeader)
  /\ (exists n', clusterconfig.becomeCandidate 13 scenarios.candidate0 = Done n'
                 /\ clusterconfig.role n' = clusterconfig.RoleCandidate).
Proof.
  pose proof (become_aborts_iff_forbidden 13 scenarios.candidate0) as H.
  assert (Hpos : 0 < clusterconfig.ElectionTimeoutTick
                       (clusterconfig.opts scenarios.candidate0))
    by (vm_compute; reflexivity).
  destruct (H Hpos) as (_ & _ & HL & HC).
  split; [exact Hpos|]. split.
  - destruct HL as (n' & Hd & Hr & _); [discriminate|]. exists n'. split; assumption.
  - destruct HC as (n' & Hd & Hr & _); [discriminate|]. exists n'. split; assumption.
Defined.

(** A reset of a candidate with the default timeout of 10 ticks and the
    draw 13: the timeout becomes 13. *)
Lemma reset_timeout_range_witness :
  0 < clusterconfig.ElectionTimeoutTick (clusterconfig.opts scenarios.candidate0) < 2 ^ 62
  /\ exists n', clusterconfig.reset 13 4 scenarios.candidate0 = Done n'
                /\ 10 <= clusterconfig.randomizedElectionTimeout n' < 20.
Proof.
  assert (Hrange : 0 < clusterconfig.ElectionTimeoutTick
                         (clusterconfig.opts scenarios.candidate0) < 2 ^ 62)
    by (vm_compute; split; reflexivity).
  split; [exact Hrange|].
  eexists. split; [vm_compute; reflexivity|].
  apply (reset_timeout_range 13 4 scenarios.candidate0 _ Hrange).
  vm_compute. reflexivity.
Defined.

(** ** reactor: [handleReceivedActions] *)

Section Received.
Import reactor.
Context {Body Data : Type}.
Variable ChannelToKey : string -> Z -> string.
Variable step : Channel Data -> ChannelAction Body -> Channel Data.

Abbreviation receive := (receiveAction ChannelToKey step).
Abbreviation handle := (handleReceivedActions ChannelToKey step).

(** The registry and the [step] calls that [handleReceivedActions]
    leaves are those of the loop over the queue, empty or not. *)
Lemma handleReceivedActions_fold (r : reactorSub Body Data) :
  channels (handle r).1.2 = (fold_left receive (actionQueue r) (channels r, [])).1
  /\ (handle r).2 = (fold_left receive (actionQueue r) (channels r, [])).2
  /\ actionQueue (handle r).1.2 = []
  /\ (handle r).1.1 = negb (length (actionQueue r) =? 0)%nat.
Proof.
  unfold handleReceivedActions, actionQueue_get.
  destruct (actionQueue r) as [|a q]; [repeat split; reflexivity|].
  change (length (a :: q) =? 0)%nat with false. cbv iota.
  destruct (fold_left receive (a :: q) (channels r, [])) as [chs calls].
  repeat split; reflexivity.
Qed.

(** An action whose number is not empty and is not the channel's number
    takes the second [continue]. *)
Lemma receiveAction_stale chs calls (a : ChannelAction Body) (user : Channel Data) :
  chs !! ChannelToKey (ChannelId a) (ChannelType a) = Some user ->
  No a <> "" -> No a <> no user ->
  receive (chs, calls) a = (chs, calls).
Proof.
  intros Hget Hne Hstale. unfold receiveAction. rewrite Hget.
  destruct (String.eqb_spec (No a) "") as [H|_]; [contradiction|].
  destruct (String.eqb_spec (No a) (no user)) as [H|_]; [contradiction|].
  reflexivity.
Qed.

(** An action with the empty number is applied, whatever the channel's
    number. *)
Lemma receiveAction_empty_no chs calls (a : ChannelAction Body) (user : Channel Data) :
  chs !! ChannelToKey (ChannelId a) (ChannelType a) = Some user ->
  No a = "" ->
  receive (chs, calls) a
  = (<[ChannelToKey (ChannelId a) (ChannelType a) := step user a]> chs,
     calls ++ [(ChannelToKey (ChannelId a) (ChannelType a), a)]).
Proof.
  intros Hget Hempty. unfold receiveAction. rewrite Hget, Hempty. reflexivity.
Qed.

(** C5, as the code has it: an action of the drained queue that
    addresses a registered channel, carries a number that is not empty,
    and whose number differs from the channel's when the loop reaches
    it, is passed over: the round changes neither the registry nor the
    record of [step] calls, and the whole run ends as the run without
    that action does. *)
Theorem stale_action_discarded (r : reactorSub Body Data)
    (pre post : list (ChannelAction Body)) (a : ChannelAction Body)
    (user : Channel Data) :
  actionQueue r = pre ++ a :: post ->
  (fold_left receive pre (channels r, [])).1
    !! ChannelToKey (ChannelId a) (ChannelType a) = Some user ->
  No a <> "" ->
  No a <> no user ->
  receive (fold_left receive pre (channels r, [])) a
    = fold_left receive pre (channels r, [])
  /\ channels (handle r).1.2
     = channels (handle (mkReactorSub (channels r) (pre ++ post))).1.2
  /\ (handle r).2 = (handle (mkReactorSub (channels r) (pre ++ post))).2.
Proof.
  intros Hq Hget Hne Hstale.
  assert (Hround : receive (fold_left receive pre (channels r, [])) a
                   = fold_left receive pre (channels r, [])).
  { destruct (fold_left receive pre (channels r, [])) as [chs calls] eqn:Hpre.
    simpl in Hget. eapply receiveAction_stale; eassumption. }
  destruct (handleReceivedActions_fold r) as (Hc & Hs & _).
  destruct (handleReceivedActions_fold (mkReactorSub (channels r) (pre ++ post)))
    as (Hc' & Hs' & _).
  simpl in Hc', Hs'.
  rewrite Hq in Hc, Hs. rewrite fold_left_app in Hc, Hs, Hc', Hs'.
  simpl in Hc, Hs. rewrite Hround in Hc, Hs.
  split; [exact Hround|]. split; congruence.
Qed.
End Received.

(** A queue of an action without a number and a stale action "n0" for
    a channel of incarnation "n1". *)
Lemma stale_action_discarded_witness :
  let a := scenarios.action_for_group1 "n0" in
  let r := scenarios.shard_with [scenarios.action_for_group1 ""; a] in
  reactor.No a <> "" /\ reactor.No a <> "n1"
  /\ (reactor.handleReceivedActions scenarios.ChannelToKey scenarios.count_step r).2
     = (reactor.handleReceivedActions scenarios.ChannelToKey scenarios.count_step
          (scenarios.shard_with [scenarios.action_for_group1 ""])).2.
Proof.
  split; [discriminate|]. split; [discriminate|].
  apply (stale_action_discarded scenarios.ChannelToKey scenarios.count_step
           (scenarios.shard_with
              [scenarios.action_for_group1 ""; scenarios.action_for_group1 "n0"])
           [scenarios.action_for_group1 ""] [] (scenarios.action_for_group1 "n0")
           (reactor.mkChannel "g1-2" "n1" 1%nat)).
  - reflexivity.
  - vm_compute. reflexivity.
  - discriminate.
  - discriminate.
Defined.

(** C5 as stated fails on an action whose number is the
    empty string: it differs from the channel's number "n1", and yet
    [step] is called with it and the channel's state moves. *)
Lemma empty_no_action_is_stepped :
  let a := scenarios.action_for_group1 "" in
  let r := scenarios.shard_with [a] in
  let out := reactor.handleReceivedActions scenarios.ChannelToKey scenarios.count_step r in
  reactor.channels r !! "g1-2" = Some scenarios.group1
  /\ scenarios.ChannelToKey (reactor.ChannelId a) (reactor.ChannelType a) = "g1-2"
  /\ String.eqb (reactor.No a) (reactor.no scenarios.group1) = false
  /\ out.2 = [("g1-2", a)]
  /\ reactor.channels out.1.2 !! "g1-2" = Some (reactor.mkChannel "g1-2" "n1" 1%nat)
  /\ reactor.data scenarios.group1 = 0%nat.
Proof. vm_compute. repeat split; reflexivity. Qed.

(** ** server: the permission check *)

Section Permission.
Import server.
Context {W : Type}.
Variable opts : Options.
Variable ChannelTypeInfo ChannelTypePerson : Z.

(** Rules (1) and (2) answer before the store is asked: the log gains no
    store call, and the result does not depend on what the store would
    have said. *)
Lemma hasPermission_short_circuit
    (env : forall c : Call, W -> resp c * W)
    (channelId : string) (channelType : Z) (uid : string) (ch : channel)
    (w : W) (log : list Call) :
  (channelType =? ChannelTypeInfo) || (channelType =? ChannelTypePerson)
    || (env (CSystemUID uid) w).1 = true ->
  (hasPermission env opts ChannelTypeInfo ChannelTypePerson
     channelId channelType uid ch w log).1.1 = Done (wkproto.ReasonSuccess, None)
  /\ List.filter is_store_call
       (hasPermission env opts ChannelTypeInfo ChannelTypePerson
          channelId channelType uid ch w log).2
     = List.filter is_store_call log.
Proof.
  intros H. unfold hasPermission.
  destruct ((channelType =? ChannelTypeInfo) || (channelType =? ChannelTypePerson)).
  - split; reflexivity.
  - simpl in H. unfold bind, call, ret.
    destruct (env (CSystemUID uid) w) as [r w1]. simpl in H. subst r. simpl.
    split; [reflexivity|].
    rewrite List.filter_app. simpl. apply app_nil_r.
Qed.

(** The cascade of [hasPermission] is the first applicable rule of the
    list, when the collaborators answer without an error. *)
Lemma hasPermission_rules
    (env : forall c : Call, W -> resp c * W)
    (channelId : string) (channelType : Z) (uid : string) (ch : channel)
    (f : Facts) (w : W) (log : list Call) :
  answers env channelId channelType uid f ->
  (hasPermission env opts ChannelTypeInfo ChannelTypePerson
     channelId channelType uid ch w log).1.1
  = Done (first_applicable
            (permission_rules opts ChannelTypeInfo ChannelTypePerson channelType ch f),
          None).
Proof.
  intros Hans. unfold hasPermission, first_applicable, permission_rules.
  cbn [List.find fst].
  destruct ((channelType =? ChannelTypeInfo) || (channelType =? ChannelTypePerson))
    eqn:Htype; [reflexivity|].
  apply orb_false_elim in Htype as [_ Hperson]. rewrite Hperson.
  unfold bind, call, ret.
  destruct (Hans w) as (Hsys & _).
  destruct (env (CSystemUID uid) w) as [r w1]. simpl in Hsys. subst r.
  destruct (systemUID f); [reflexivity|].
  destruct (Ban (info ch)); [reflexivity|].
  destruct (Disband (info ch)); [reflexivity|].
  destruct (Hans w1) as (_ & Hdeny & _).
  destruct (env (CExistDenylist channelId channelType uid) w1) as [r w2].
  simpl in Hdeny. subst r. simpl.
  destruct (onDenylist f); [reflexivity|].
  destruct (Hans w2) as (_ & _ & Hsub & _).
  destruct (env (CExistSubscriber channelId channelType uid) w2) as [r w3].
  simpl in Hsub. subst r. simpl.
  destruct (isSubscriber f); [|reflexivity]. simpl.
  rewrite orb_true_r. simpl.
  destruct (Hans w3) as (_ & _ & _ & Hhas & _).
  destruct (env (CHasAllowlist channelId channelType) w3) as [r w4].
  simpl in Hhas. subst r. simpl.
  destruct (anyAllowlist f).
  - destruct (Hans w4) as (_ & _ & _ & _ & Hon).
    destruct (env (CExistAllowlist channelId channelType uid) w4) as [r w5].
    simpl in Hon. subst r. simpl.
    destruct (WhitelistOffOfPerson opts), (onAllowlist f); reflexivity.
  - destruct (WhitelistOffOfPerson opts); reflexivity.
Qed.

(** A lookup that fails ends the check with [ReasonSystemError] and the
    error; shown for the first lookup. *)
Lemma hasPermission_denylist_error
    (env : forall c : Call, W -> resp c * W)
    (channelId : string) (channelType : Z) (uid : string) (ch : channel)
    (w : W) (log : list Call) (e : string) (b : bool) :
  (channelType =? ChannelTypeInfo) || (channelType =? ChannelTypePerson) = false ->
  (env (CSystemUID uid) w).1 = false ->
  Ban (info ch) = false -> Disband (info ch) = false ->
  (env (CExistDenylist channelId channelType uid) (env (CSystemUID uid) w).2).1
    = (b, Some e) ->
  (hasPermission env opts ChannelTypeInfo ChannelTypePerson
     channelId channelType uid ch w log).1.1
  = Done (wkproto.ReasonSystemError, Some e).
Proof.
  intros Htype Hsys Hban Hdis Hdeny. unfold hasPermission.
  rewrite Htype. unfold bind, call, ret.
  destruct (env (CSystemUID uid) w) as [r w1]. simpl in Hsys, Hdeny. subst r.
  rewrite Hban, Hdis.
  destruct (env (CExistDenylist channelId channelType uid) w1) as [r w2].
  simpl in Hdeny. subst r. reflexivity.
Qed.

(** C3.  With collaborators that answer according to the facts,
    [hasPermission] returns the reason code of the first applicable rule
    of the list (1) to (7), and Success when none applies; and in cases
    (1) and (2) it returns Success with no store call made, whatever the
    store and its state. *)
Theorem hasPermission_first_applicable_rule
    (env : forall c : Call, W -> resp c * W)
    (channelId : string) (channelType : Z) (uid : string) (ch : channel)
    (f : Facts) :
  answers env channelId channelType uid f ->
  (forall (w : W) (log : list Call),
     (hasPermission env opts ChannelTypeInfo ChannelTypePerson
        channelId channelType uid ch w log).1.1
     = Done (first_applicable
               (permission_rules opts ChannelTypeInfo ChannelTypePerson channelType ch f),
             None))
  /\ ((channelType =? ChannelTypeInfo) || (channelType =? ChannelTypePerson)
        || systemUID f = true ->
      forall (env' : forall c : Call, W -> resp c * W) (w' : W) (log : list Call),
        (forall w, (env' (CSystemUID uid) w).1 = systemUID f) ->
        (hasPermission env' opts ChannelTypeInfo ChannelTypePerson
           channelId channelType uid ch w' log).1.1
        = Done (wkproto.ReasonSuccess, None)
        /\ List.filter is_store_call
             (hasPermission env' opts ChannelTypeInfo ChannelTypePerson
                channelId channelType uid ch w' log).2
           = List.filter is_store_call log).
Proof.
  intros Hans. split.
  - intros w log. apply hasPermission_rules. exact Hans.
  - intros Hshort env' w' log Hsys. apply hasPermission_short_circuit.
    rewrite Hsys. exact Hshort.
Qed.
End Permission.

(** A subscriber on no list sends to a group, banned or not. *)
Lemma hasPermission_first_applicable_rule_witness :
  server.answers scenarios.env_online "g1" 2 "u1" scenarios.facts0
  /\ (server.hasPermission scenarios.env_online scenarios.server_opts 6 1
        "g1" 2 "u1" (scenarios.group true) tt []).1.1
     = Done (wkproto.ReasonBan, None)
  /\ (server.hasPermission scenarios.env_online scenarios.server_opts 6 1
        "g1" 2 "u1" (scenarios.group false) tt []).1.1
     = Done (wkproto.ReasonSuccess, None).
Proof.
  assert (Hans : server.answers scenarios.env_online "g1" 2 "u1" scenarios.facts0)
    by (intros []; repeat split; reflexivity).
  split; [exact Hans|]. split.
  - destruct (hasPermission_first_applicable_rule scenarios.server_opts 6 1
                scenarios.env_online "g1" 2 "u1" (scenarios.group true)
                scenarios.facts0 Hans) as [Hrule _].
    rewrite Hrule. reflexivity.
  - destruct (hasPermission_first_applicable_rule scenarios.server_opts 6 1
                scenarios.env_online "g1" 2 "u1" (scenarios.group false)
                scenarios.facts0 Hans) as [Hrule _].
    rewrite Hrule. reflexivity.
Defined.

Section PermissionResponse.
Import server.
Context {W : Type}.
Variable env : forall c : Call, W -> resp c * W.
Variable opts : Options.
Variable ChannelTypeInfo ChannelTypePerson : Z.

Abbreviation check req :=
  (hasPermission env opts ChannelTypeInfo ChannelTypePerson
     (channelId (permissionReq.ch req)) (channelType (permissionReq.ch req))
     (permissionReq.fromUid req) (permissionReq.ch req)).

(** The response that [processPermission] hands to the shard when the
    check ends without an error: it carries the reason code, and its
    [Reason] is [ReasonSuccess] only for the reason code Success. *)
Lemma processPermission_response (req : permissionReq.t) (w w1 : W)
    (log log1 : list Call) (code : wkproto.ReasonCode)
    (lastMsg : ReactorChannelMessage) :
  check req w log = (Done (code, None), w1, log1) ->
  last (permissionReq.messages req) = Some lastMsg ->
  (processPermission env opts ChannelTypeInfo ChannelTypePerson req w log).1.1 = Done tt
  /\ (processPermission env opts ChannelTypeInfo ChannelTypePerson req w log).2
     = log1 ++
       [CStep (permissionReq.ch req)
          (ChannelAction.mk (uniqueNo (permissionReq.ch req))
             ChannelActionPermissionCheckResp (Index lastMsg)
             (if bool_decide (code = wkproto.ReasonSuccess)
              then ReasonSuccess else ReasonError)
             code 0 [])].
Proof.
  intros Hcheck Hlast. unfold processPermission, bind.
  rewrite Hcheck. simpl. unfold lastOf. rewrite Hlast. unfold ret, call.
  destruct (env _ w1) as [[] w2]. simpl.
  destruct (bool_decide_reflect (code = wkproto.ReasonSuccess)) as [->|Hne].
  - split; reflexivity.
  - rewrite bool_decide_eq_true_2 by exact Hne. split; reflexivity.
Qed.

(** A denial is answered with [ReasonError], as a failed lookup is. *)
Lemma processPermission_denial (req : permissionReq.t) (w w1 : W)
    (log log1 : list Call) (code : wkproto.ReasonCode)
    (lastMsg : ReactorChannelMessage) :
  check req w log = (Done (code, None), w1, log1) ->
  last (permissionReq.messages req) = Some lastMsg ->
  is_denial code = true ->
  stepped (processPermission env opts ChannelTypeInfo ChannelTypePerson req w log).2
  = stepped log1 ++
    [(permissionReq.ch req,
      ChannelAction.mk (uniqueNo (permissionReq.ch req))
        ChannelActionPermissionCheckResp (Index lastMsg) ReasonError code 0 [])].
Proof.
  intros Hcheck Hlast Hden.
  destruct (processPermission_response req w w1 log log1 code lastMsg Hcheck Hlast)
    as [_ ->].
  unfold stepped. rewrite omap_app. simpl.
  destruct code; try discriminate; reflexivity.
Qed.
End PermissionResponse.

(** C4.  A sender's message to a banned group: the check ends without a
    store error with the reason code Ban, and the PermissionCheckResp
    handed back to the shard carries that code under [ReasonError], the
    tag of the failed-lookup branch, and not under [ReasonSuccess]. *)
Theorem processPermission_denial_tagged_error :
  let req := server.permissionReq.mk "u1" (scenarios.group true)
               [scenarios.message 11 4 false; scenarios.message 12 5 false] in
  let out := server.run (server.processPermission scenarios.env_online
                           scenarios.server_opts 6 1 req) tt in
  (server.run (server.hasPermission scenarios.env_online scenarios.server_opts 6 1
                 "g1" 2 "u1" (scenarios.group true)) tt).1.1
    = Done (wkproto.ReasonBan, None)
  /\ out.1.1 = Done tt
  /\ server.stepped out.2
     = [(scenarios.group true,
         server.ChannelAction.mk "n1" server.ChannelActionPermissionCheckResp 5
           server.ReasonError wkproto.ReasonBan 0 [])].
Proof. vm_compute. repeat split; reflexivity. Qed.

(** ** server: loops of the worker monad *)

Section Loops.
Import server.
Context {W : Type}.
Variable env : forall c : Call, W -> resp c * W.

Lemma completes_ret {A} (a : A) : completes (@ret W A a).
Proof. intros w log. eexists _, _, _. reflexivity. Qed.

Lemma completes_call (c : Call) : completes (call env c).
Proof.
  intros w log. unfold call. destruct (env c w) as [r w'].
  eexists _, _, _. reflexivity.
Qed.

Lemma completes_bind {A B} (m : M W A) (k : A -> M W B) :
  completes m -> (forall a, completes (k a)) -> completes (bind m k).
Proof.
  intros Hm Hk w log. unfold bind.
  destruct (Hm w log) as (a & w' & log' & ->). apply Hk.
Qed.

Lemma completes_foldEach {A S} (body : S -> A -> M W S) (xs : list A) :
  (forall s x, completes (body s x)) -> forall s, completes (foldEach xs s body).
Proof.
  intros Hbody. induction xs as [|x xs IH]; intros s; simpl.
  - apply completes_ret.
  - apply completes_bind; [apply Hbody | exact IH].
Qed.

(** A panic of the first computation is the panic of the sequence. *)
Lemma bind_panics {A B} (m : M W A) (k : A -> M W B) (why : string) w log :
  (m w log).1.1 = Panic why -> (bind m k w log).1.1 = Panic why.
Proof.
  unfold bind. destruct (m w log) as [[[a|why'] w'] log']; simpl; [discriminate|].
  intros [= ->]. reflexivity.
Qed.

(** A loop panics when one of its rounds is bound to panic and the
    rounds before it can fail in no other way. *)
Lemma forEach_panics {A} (body : A -> M W unit) (why : string) (xs : list A) (x : A) :
  (forall y, completes_or why (body y)) ->
  In x xs ->
  (forall w log, (body x w log).1.1 = Panic why) ->
  forall w log, (forEach xs body w log).1.1 = Panic why.
Proof.
  intros Hall Hin Hx. induction xs as [|y xs IH]; [destruct Hin|].
  intros w log. simpl. destruct Hin as [->|Hin].
  - apply bind_panics, Hx.
  - destruct (Hall y w log) as [(a & w' & log' & Hy)|Hy].
    + unfold bind. rewrite Hy. apply IH, Hin.
    + apply bind_panics, Hy.
Qed.

Lemma foldEach_panics {A S} (body : S -> A -> M W S) (why : string)
    (xs : list A) (x : A) :
  (forall s y, completes_or why (body s y)) ->
  In x xs ->
  (forall s w log, (body s x w log).1.1 = Panic why) ->
  forall s w log, (foldEach xs s body w log).1.1 = Panic why.
Proof.
  intros Hall Hin Hx. induction xs as [|y xs IH]; [destruct Hin|].
  intros s w log. simpl. destruct Hin as [->|Hin].
  - apply bind_panics, Hx.
  - destruct (Hall s y w log) as [(a & w' & log' & Hy)|Hy].
    + unfold bind. rewrite Hy. apply IH, Hin.
    + apply bind_panics, Hy.
Qed.

(** Reading the last element: it is there exactly for a list that is
    not empty. *)
Lemma lastOf_nil w log :
  (@lastOf W [] w log).1.1 = Panic "runtime error: index out of range [-1]".
Proof. reflexivity. Qed.

Lemma lastOf_cases (msgs : list ReactorChannelMessage) :
  completes_or "runtime error: index out of range [-1]" (@lastOf W msgs).
Proof.
  intros w log. unfold lastOf. destruct (last msgs).
  - left. eexists _, _, _. reflexivity.
  - right. reflexivity.
Qed.
End Loops.

(** ** server: the workers on a request without messages *)

Section EmptyMessages.
Import server.
Context {W : Type}.
Variable env : forall c : Call, W -> resp c * W.
Variable opts : Options.
Variable ChannelTypeInfo ChannelTypePerson : Z.
Variable Status_OK : Z.

Lemma completes_completes_or {A} (why : string) (m : M W A) :
  completes m -> completes_or why m.
Proof. intros H w log. left. apply H. Qed.

Lemma panics_completes_or {A} (why : string) (m : M W A) :
  panics why m -> completes_or why m.
Proof. intros H w log. right. apply H. Qed.

Lemma completes_or_bind {A B} (why : string) (m : M W A) (k : A -> M W B) :
  completes_or why m -> (forall a, completes_or why (k a)) ->
  completes_or why (bind m k).
Proof.
  intros Hm Hk w log. destruct (Hm w log) as [(a & w' & log' & Hdone)|Hpanic].
  - unfold bind. rewrite Hdone. apply Hk.
  - right. apply bind_panics, Hpanic.
Qed.

Lemma completes_step (ch : channel) (a : ChannelAction.t) :
  @completes W unit (call env (CStep ch a)).
Proof. apply (completes_call env (CStep ch a)). Qed.

Lemma panics_bind_l {A B} (why : string) (m : M W A) (k : A -> M W B) :
  panics why m -> panics why (bind m k).
Proof. intros Hm w log. apply bind_panics, Hm. Qed.

Lemma panics_bind_r {A B} (why : string) (m : M W A) (k : A -> M W B) :
  completes m -> (forall a, panics why (k a)) -> panics why (bind m k).
Proof.
  intros Hm Hk w log. destruct (Hm w log) as (a & w' & log' & Hdone).
  unfold bind. rewrite Hdone. apply Hk.
Qed.

(** Goals [completes m] for a worker built from [ret], [call], [bind]
    and case distinctions. *)
Ltac completes_tac :=
  repeat first
    [ apply completes_ret
    | apply completes_call
    | apply completes_foldEach; intros ? ?
    | apply completes_bind; [|intros ?]
    | match goal with
      | |- completes (if ?b then _ else _) => destruct b
      | |- completes (match ?x with (_, _) => _ end) => destruct x
      | |- completes (let _ := _ in _) => cbv zeta
      end ].

Lemma hasPermission_completes channelId channelType uid ch :
  completes (hasPermission env opts ChannelTypeInfo ChannelTypePerson
               channelId channelType uid ch).
Proof. unfold hasPermission. completes_tac. Qed.

Lemma collectStoreMessages_completes ch msgs :
  completes (collectStoreMessages env ch msgs).
Proof. unfold collectStoreMessages. completes_tac. Qed.

Lemma sendackMessages_completes msgs byNode :
  completes (sendackMessages env opts msgs byNode).
Proof. unfold sendackMessages. completes_tac. Qed.

Lemma assignResult_length logId logIndex msgs :
  length (assignResult logId logIndex msgs) = length msgs.
Proof.
  induction msgs as [|m msgs IH]; simpl; [reflexivity|].
  destruct (MessageId m =? logId); simpl; [reflexivity|]. rewrite IH. reflexivity.
Qed.

Lemma copyResults_length results msgs :
  length (copyResults results msgs) = length msgs.
Proof.
  unfold copyResults. revert msgs.
  induction results as [|r results IH]; intros msgs; simpl; [reflexivity|].
  rewrite IH. apply assignResult_length.
Qed.

(** Each worker ends in one of two ways: it completes, or it panics on
    the index of the last message. *)
Lemma processPermission_outcome req :
  completes_or index_out_of_range
    (processPermission env opts ChannelTypeInfo ChannelTypePerson req).
Proof.
  unfold processPermission. cbv zeta.
  apply completes_or_bind;
    [apply completes_completes_or, hasPermission_completes|].
  intros [code err]. destruct (is_err err).
  - apply completes_or_bind; [apply lastOf_cases|].
    intros m. apply completes_completes_or, completes_step.
  - apply completes_or_bind; [apply lastOf_cases|].
    intros m. apply completes_completes_or, completes_step.
Qed.

Lemma processStorage1_outcome req :
  completes_or index_out_of_range (processStorage1 env req).
Proof.
  unfold processStorage1. cbv zeta.
  apply completes_or_bind;
    [apply completes_completes_or, collectStoreMessages_completes|].
  intros sm. apply completes_or_bind;
    [apply completes_completes_or, completes_call|].
  intros [results err]. apply completes_or_bind; [apply lastOf_cases|].
  intros m. apply completes_completes_or, completes_step.
Qed.

Lemma processPermission_empty req :
  permissionReq.messages req = [] ->
  panics index_out_of_range
    (processPermission env opts ChannelTypeInfo ChannelTypePerson req).
Proof.
  intros Hempty. unfold processPermission. cbv zeta. rewrite Hempty.
  apply panics_bind_r; [apply hasPermission_completes|].
  intros [code err]. destruct (is_err err);
    apply panics_bind_l; intros w log; reflexivity.
Qed.

Lemma processStorage1_empty req :
  storageReq.messages req = [] ->
  panics index_out_of_range (processStorage1 env req).
Proof.
  intros Hempty. unfold processStorage1. cbv zeta. rewrite Hempty.
  apply panics_bind_r; [apply collectStoreMessages_completes|].
  intros sm. apply panics_bind_r; [apply completes_call|].
  intros [results err]. apply panics_bind_l.
  assert (Hnil : (if (0 <? length results)%nat
                  then copyResults results [] else []) = []).
  { destruct (0 <? length results)%nat; [|reflexivity].
    apply length_zero_iff_nil, copyResults_length. }
  rewrite Hnil. intros w log. reflexivity.
Qed.

Lemma sendack_round_outcome byNode (req : sendackReq.t) :
  completes_or index_out_of_range
    (bind (sendackMessages env opts (sendackReq.messages req) byNode) (fun byNode' =>
     bind (lastOf (sendackReq.messages req)) (fun lastMsg =>
     bind (call env (CStep (sendackReq.ch req)
             (ChannelAction.mk (uniqueNo (sendackReq.ch req))
                ChannelActionSendackResp (Index lastMsg) ReasonSuccess
                wkproto.ReasonUnknown 0 []))) (fun _ => ret byNode')))).
Proof.
  apply completes_or_bind;
    [apply completes_completes_or, sendackMessages_completes|].
  intros byNode'. apply completes_or_bind; [apply lastOf_cases|].
  intros m. apply completes_completes_or, completes_bind;
    [apply completes_step | intros; apply completes_ret].
Qed.

Lemma processSendack_empty (reqs : list sendackReq.t) (req : sendackReq.t) :
  In req reqs -> sendackReq.messages req = [] ->
  panics index_out_of_range (processSendack env opts Status_OK reqs).
Proof.
  intros Hin Hempty. unfold processSendack. apply panics_bind_l.
  intros w log. cbv zeta.
  eapply foldEach_panics with (x := req); [|exact Hin|].
  - intros byNode y. apply sendack_round_outcome.
  - intros byNode w' log'. rewrite Hempty. reflexivity.
Qed.

Lemma deliver_round_outcome (req : deliverReq.t) :
  completes_or index_out_of_range
    (bind (handleDeliver env req) (fun _ =>
     bind (lastOf (deliverReq.messages req)) (fun lastMsg =>
     call env (CStep (deliverReq.ch req)
       (ChannelAction.mk (uniqueNo (deliverReq.ch req))
          ChannelActionDeliverResp (Index lastMsg) ReasonSuccess
          wkproto.ReasonUnknown 0 []))))).
Proof.
  apply completes_or_bind;
    [apply completes_completes_or; unfold handleDeliver;
     apply (completes_call env (CDeliver req))|].
  intros _. apply completes_or_bind; [apply lastOf_cases|].
  intros m. apply completes_completes_or, completes_step.
Qed.

Lemma processDeliver_empty (reqs : list deliverReq.t) (req : deliverReq.t) :
  In req reqs -> deliverReq.messages req = [] ->
  panics index_out_of_range (processDeliver env reqs).
Proof.
  intros Hin Hempty. unfold processDeliver. intros w log. cbv zeta.
  eapply forEach_panics with (x := req); [|exact Hin|].
  - intros y. apply deliver_round_outcome.
  - intros w' log'. rewrite Hempty. unfold handleDeliver, bind, call.
    destruct (env (CDeliver req) w') as [[] w'']. reflexivity.
Qed.

Lemma processStorage_empty (reqs : list storageReq.t) (req : storageReq.t) :
  In req reqs -> storageReq.messages req = [] ->
  panics index_out_of_range (processStorage env reqs).
Proof.
  intros Hin Hempty. unfold processStorage. intros w log.
  eapply forEach_panics with (x := req); [|exact Hin|].
  - intros y. apply processStorage1_outcome.
  - apply processStorage1_empty, Hempty.
Qed.

Lemma forEach_completes {A} (body : A -> M W unit) (xs : list A) :
  (forall x, In x xs -> completes (body x)) -> completes (forEach xs body).
Proof.
  induction xs as [|x xs IH]; intros Hall; simpl.
  - apply completes_ret.
  - apply completes_bind; [apply Hall; left; reflexivity|].
    intros _. apply IH. intros y Hy. apply Hall. right. exact Hy.
Qed.

Lemma foldEach_completes_in {A S} (body : S -> A -> M W S) (xs : list A) :
  (forall s x, In x xs -> completes (body s x)) ->
  forall s, completes (foldEach xs s body).
Proof.
  induction xs as [|x xs IH]; intros Hall s; simpl.
  - apply completes_ret.
  - apply completes_bind; [apply Hall; left; reflexivity|].
    intros s'. apply IH. intros s'' y Hy. apply Hall. right. exact Hy.
Qed.

Lemma lastOf_completes (msgs : list ReactorChannelMessage) :
  msgs <> [] -> completes (@lastOf W msgs).
Proof.
  intros Hne w log. unfold lastOf.
  destruct (last msgs) as [m|] eqn:Hlast.
  - eexists _, _, _. reflexivity.
  - apply last_None in Hlast. contradiction.
Qed.

Lemma requestForwardSendack_completes nodeId packets :
  completes (requestForwardSendack env Status_OK nodeId packets).
Proof. unfold requestForwardSendack. completes_tac. Qed.

(** With a message in every request the workers complete. *)
Lemma processPermission_nonempty req :
  permissionReq.messages req <> [] ->
  completes (processPermission env opts ChannelTypeInfo ChannelTypePerson req).
Proof.
  intros Hne. unfold processPermission. cbv zeta.
  apply completes_bind; [apply hasPermission_completes|].
  intros [code err]. destruct (is_err err);
    (apply completes_bind; [apply lastOf_completes, Hne | intros m; apply completes_step]).
Qed.

Lemma processStorage1_nonempty req :
  storageReq.messages req <> [] -> completes (processStorage1 env req).
Proof.
  intros Hne. unfold processStorage1. cbv zeta.
  apply completes_bind; [apply collectStoreMessages_completes|].
  intros sm. apply completes_bind; [apply completes_call|].
  intros [results err]. apply completes_bind; [|intros m; apply completes_step].
  apply lastOf_completes. intros Hnil. apply Hne.
  apply (f_equal length) in Hnil.
  destruct (0 <? length results)%nat; [rewrite copyResults_length in Hnil|];
    apply length_zero_iff_nil; exact Hnil.
Qed.

Lemma processStorage_nonempty (reqs : list storageReq.t) :
  Forall (fun req => storageReq.messages req <> []) reqs ->
  completes (processStorage env reqs).
Proof.
  intros Hall. unfold processStorage. apply forEach_completes.
  intros req Hin. apply processStorage1_nonempty.
  revert req Hin. apply List.Forall_forall. exact Hall.
Qed.

Lemma processSendack_nonempty (reqs : list sendackReq.t) :
  Forall (fun req => sendackReq.messages req <> []) reqs ->
  completes (processSendack env opts Status_OK reqs).
Proof.
  intros Hall. unfold processSendack. apply completes_bind.
  - apply foldEach_completes_in. intros byNode req Hin. cbv zeta.
    apply completes_bind; [apply sendackMessages_completes|].
    intros byNode'. apply completes_bind.
    + apply lastOf_completes. revert req Hin. apply List.Forall_forall. exact Hall.
    + intros m. apply completes_bind; [apply completes_step|].
      intros _. apply completes_ret.
  - intros byNode. apply forEach_completes. intros [nodeId packets] _.
    apply completes_bind; [apply requestForwardSendack_completes|].
    intros _. apply completes_ret.
Qed.

Lemma processDeliver_nonempty (reqs : list deliverReq.t) :
  Forall (fun req => deliverReq.messages req <> []) reqs ->
  completes (processDeliver env reqs).
Proof.
  intros Hall. unfold processDeliver. apply forEach_completes.
  intros req Hin. cbv zeta.
  apply completes_bind;
    [unfold handleDeliver; apply (completes_call env (CDeliver req))|].
  intros _. apply completes_bind; [|intros m; apply completes_step].
  apply lastOf_completes. revert req Hin. apply List.Forall_forall. exact Hall.
Qed.

(** A batch holds a request without messages, or every request has one. *)
Lemma empty_or_all {A} (messages : A -> list ReactorChannelMessage) (reqs : list A) :
  Exists (fun req => messages req = []) reqs
  \/ Forall (fun req => messages req <> []) reqs.
Proof.
  induction reqs as [|req reqs [IH|IH]].
  - right. constructor.
  - left. apply Exists_cons_tl. exact IH.
  - destruct (messages req) eqn:Hm.
    + left. apply Exists_cons_hd. exact Hm.
    + right. constructor; [rewrite Hm; discriminate | exact IH].
Qed.

Lemma completes_not_panic {A} (m : M W A) (why : string) w log :
  completes m -> (m w log).1.1 <> Panic why.
Proof. intros Hm. destruct (Hm w log) as (a & w' & log' & ->). discriminate. Qed.

(** C10.  The four workers read the last message of a request through a
    checked index and nothing guards it: [processPermission] panics on
    that index exactly when its request has no message, and
    [processStorage], [processSendack] and [processDeliver] exactly when
    their batch holds a request without messages. *)
Theorem workers_abort_iff_empty_messages (w : W)
    (preq : permissionReq.t) (sreqs : list storageReq.t)
    (areqs : list sendackReq.t) (dreqs : list deliverReq.t) :
  ((run (processPermission env opts ChannelTypeInfo ChannelTypePerson preq) w).1.1
     = Panic index_out_of_range
   <-> permissionReq.messages preq = [])
  /\ ((run (processStorage env sreqs) w).1.1 = Panic index_out_of_range
      <-> Exists (fun req => storageReq.messages req = []) sreqs)
  /\ ((run (processSendack env opts Status_OK areqs) w).1.1 = Panic index_out_of_range
      <-> Exists (fun req => sendackReq.messages req = []) areqs)
  /\ ((run (processDeliver env dreqs) w).1.1 = Panic index_out_of_range
      <-> Exists (fun req => deliverReq.messages req = []) dreqs).
Proof.
  unfold run. repeat split.
  - intros Hpanic. destruct (permissionReq.messages preq) eqn:Hm; [reflexivity|].
    exfalso. revert Hpanic. apply completes_not_panic, processPermission_nonempty.
    rewrite Hm. discriminate.
  - intros Hempty. apply processPermission_empty, Hempty.
  - intros Hpanic. destruct (empty_or_all storageReq.messages sreqs) as [H|H]; [exact H|].
    exfalso. revert Hpanic. apply completes_not_panic, processStorage_nonempty, H.
  - intros Hex. apply List.Exists_exists in Hex as (req & Hin & Hempty).
    eapply processStorage_empty; eassumption.
  - intros Hpanic. destruct (empty_or_all sendackReq.messages areqs) as [H|H]; [exact H|].
    exfalso. revert Hpanic. apply completes_not_panic, processSendack_nonempty, H.
  - intros Hex. apply List.Exists_exists in Hex as (req & Hin & Hempty).
    eapply processSendack_empty; eassumption.
  - intros Hpanic. destruct (empty_or_all deliverReq.messages dreqs) as [H|H]; [exact H|].
    exfalso. revert Hpanic. apply completes_not_panic, processDeliver_nonempty, H.
  - intros Hex. apply List.Exists_exists in Hex as (req & Hin & Hempty).
    eapply processDeliver_empty; eassumption.
Qed.
End EmptyMessages.

(** A storage batch whose second request has no message: the first
    request is appended and answered, then the worker panics. *)
Example storage_batch_with_empty_request :
  let ch := scenarios.group false in
  let out := server.run (server.processStorage scenarios.env_online
                           [server.storageReq.mk ch [scenarios.message 11 4 false];
                            server.storageReq.mk ch []]) tt in
  out.1.1 = Panic server.index_out_of_range
  /\ length (server.appended out.2) = 2%nat
  /\ length (server.stepped out.2) = 1%nat.
Proof. vm_compute. repeat split; reflexivity. Qed.

(** ** server: forwarding to a leader that is offline *)

Section Forward.
Import server.
Context {W : Type}.
Variable env : forall c : Call, W -> resp c * W.
Variable errCodeNotIsChannelLeader Status_OK : Z.

(** C8, as the code has it: when [NodeIsOnline] reports the recorded
    leader of a request offline, the round of [processForward] for that
    request asks [LeaderIdOfChannel] under a deadline of one second and
    sends no request to the leader; it hands back a LeaderChange action
    with the resolved id only when that id is greater than zero, and
    then a ForwardResp action with the request's messages and
    [ReasonError]; the batch goes on with the next request. *)
Theorem forward_to_offline_leader (req : forwardReq.t) (rest : list forwardReq.t)
    (w : W) (log : list Call) :
  (env (CNodeIsOnline (forwardReq.leaderId req)) w).1 = false ->
  let ch := forwardReq.ch req in
  let w1 := (env (CNodeIsOnline (forwardReq.leaderId req)) w).2 in
  let newLeaderId :=
    (env (CLeaderIdOfChannel 1 (channelId ch) (channelType ch)) w1).1.1 in
  let round :=
    [CNodeIsOnline (forwardReq.leaderId req);
     CLeaderIdOfChannel 1 (channelId ch) (channelType ch)]
    ++ (if newLeaderId >? 0
        then [CStep ch (ChannelAction.mk (uniqueNo ch) ChannelActionLeaderChange
                          0 ReasonNone wkproto.ReasonUnknown newLeaderId [])]
        else [])
    ++ [CStep ch (ChannelAction.mk (uniqueNo ch) ChannelActionForwardResp
                    0 ReasonError wkproto.ReasonUnknown 0
                    (forwardReq.messages req))] in
  existsb (is_request_to "/wk/channelFoward") round = false
  /\ exists w' : W,
       processForward env errCodeNotIsChannelLeader Status_OK (req :: rest) w log
       = processForward env errCodeNotIsChannelLeader Status_OK rest w' (log ++ round).
Proof.
  intros Hoff. cbv zeta. split.
  - destruct (_ >? 0); reflexivity.
  - unfold processForward. cbn [forEach]. unfold bind at 1.
    unfold processForward1 at 1. unfold bind, call, ret.
    destruct (env (CNodeIsOnline (forwardReq.leaderId req)) w) as [online w1].
    simpl in Hoff. subst online. simpl.
    destruct (env (CLeaderIdOfChannel 1 _ _) w1) as [[newLeaderId err] w2]. simpl.
    destruct err as [e|]; simpl;
      destruct (newLeaderId >? 0); simpl;
      repeat match goal with
             | |- context [env (CStep ?ch ?a) ?x] =>
                 destruct (env (CStep ch a) x) as [[] ?]
             end;
      simpl; eexists; rewrite <- ?app_assoc; reflexivity.
Qed.
End Forward.

(** Node 2, the recorded leader, is offline; the channel has moved to
    node 3. *)
Lemma forward_to_offline_leader_witness :
  let req := server.forwardReq.mk (scenarios.group false) 2 [scenarios.message 11 4 false] in
  (scenarios.env_leader_moved (server.CNodeIsOnline 2) tt).1 = false
  /\ server.stepped (server.run (server.processForward scenarios.env_leader_moved 9 0 [req]) tt).2
     = [(scenarios.group false,
         server.ChannelAction.mk "n1" server.ChannelActionLeaderChange 0
           server.ReasonNone wkproto.ReasonUnknown 3 []);
        (scenarios.group false,
         server.ChannelAction.mk "n1" server.ChannelActionForwardResp 0
           server.ReasonError wkproto.ReasonUnknown 0 [scenarios.message 11 4 false])].
Proof.
  split; [reflexivity|].
  destruct (forward_to_offline_leader scenarios.env_leader_moved 9 0
              (server.forwardReq.mk (scenarios.group false) 2
                 [scenarios.message 11 4 false]) [] tt [] eq_refl)
    as (_ & w' & Hrun).
  cbv zeta. unfold server.run. rewrite Hrun. reflexivity.
Defined.

(** C8 as stated fails when the resolution yields no leader:
    node 2 is offline and [LeaderIdOfChannel] runs into its deadline, so
    the id is 0; the shard gets the ForwardResp action and no
    LeaderChange action. *)
Lemma offline_leader_unresolved_no_leader_change :
  let req := server.forwardReq.mk (scenarios.group false) 2 [scenarios.message 11 4 false] in
  let out := server.run (server.processForward scenarios.env_leader_lost 9 0 [req]) tt in
  (scenarios.env_leader_lost (server.CNodeIsOnline 2) tt).1 = false
  /\ (scenarios.env_leader_lost (server.CLeaderIdOfChannel 1 "g1" 2) tt).1
     = (0, Some "context deadline exceeded")
  /\ out.1.1 = Done tt
  /\ out.2 = [server.CNodeIsOnline 2; server.CLeaderIdOfChannel 1 "g1" 2;
              server.CStep (scenarios.group false)
                (server.ChannelAction.mk "n1" server.ChannelActionForwardResp 0
                   server.ReasonError wkproto.ReasonUnknown 0
                   [scenarios.message 11 4 false])].
Proof. vm_compute. repeat split; reflexivity. Qed.

(** ** server: storage *)

Section Storage.
Import server.
Context {W : Type}.
Variable env : forall c : Call, W -> resp c * W.

Abbreviation plain := notEncrypted.

(** The first loop: one record per message that is not encrypted, in
    order, after those collected before; it asks the clock and nothing
    else. *)
Lemma collectStoreMessages_loop (ch : channel) (msgs : list ReactorChannelMessage) :
  forall (acc : list wkdb.Message) (w : W) (log : list Call),
  exists (sm : list wkdb.Message) (w' : W),
    foldEach msgs acc (fun sotreMessages msg =>
      if IsEncrypt msg then ret sotreMessages
      else bind (call env CNowUnix) (fun now =>
           ret (sotreMessages ++ [storeMessage ch now msg]))) w log
    = (Done (acc ++ sm), w', log ++ replicate (length sm) CNowUnix)
    /\ Forall2 (stored_from ch) (List.filter plain msgs) sm.
Proof.
  remember (fun (sotreMessages : list wkdb.Message) (msg : ReactorChannelMessage) =>
              if IsEncrypt msg then ret sotreMessages
              else bind (call env CNowUnix) (fun now =>
                   ret (sotreMessages ++ [storeMessage ch now msg]))) as body eqn:Hbody.
  assert (Hround : forall acc msg w log,
            body acc msg w log
            = if IsEncrypt msg then (Done acc, w, log)
              else (Done (acc ++ [storeMessage ch (env CNowUnix w).1 msg]),
                    (env CNowUnix w).2, log ++ [CNowUnix])).
  { intros acc msg w log. subst body. unfold bind, call, ret.
    destruct (IsEncrypt msg); [reflexivity|].
    destruct (env CNowUnix w); reflexivity. }
  clear Hbody.
  induction msgs as [|msg msgs IH]; intros acc w log.
  - exists [], w. simpl. rewrite !app_nil_r. split; [reflexivity | constructor].
  - cbn [foldEach List.filter]. unfold bind at 1. rewrite Hround.
    unfold notEncrypted at 1. destruct (IsEncrypt msg) eqn:Henc; cbn [negb].
    + apply IH.
    + destruct (IH (acc ++ [storeMessage ch (env CNowUnix w).1 msg])
                   (env CNowUnix w).2 (log ++ [CNowUnix]))
        as (sm & w' & Hrun & Hall).
      exists (storeMessage ch (env CNowUnix w).1 msg :: sm), w'. split.
      * rewrite Hrun. cbn [length replicate]. rewrite <- !app_assoc. reflexivity.
      * constructor; [eexists; reflexivity | exact Hall].
Qed.

Lemma collectStoreMessages_run (ch : channel) (msgs : list ReactorChannelMessage)
    (w : W) (log : list Call) :
  exists (sm : list wkdb.Message) (w' : W),
    collectStoreMessages env ch msgs w log
    = (Done sm, w', log ++ replicate (length sm) CNowUnix)
    /\ Forall2 (stored_from ch) (List.filter plain msgs) sm.
Proof.
  destruct (collectStoreMessages_loop ch msgs [] w log) as (sm & w' & Hrun & Hall).
  exists sm, w'. split; [exact Hrun | exact Hall].
Qed.

(** One round of [processStorage], step by step: the records go to the
    store in one call; the results are copied back; the response carries
    the messages so updated. *)
Lemma processStorage1_run (req : storageReq.t) (w : W) (log : list Call) :
  exists (sm : list wkdb.Message) (w1 : W),
    Forall2 (stored_from (storageReq.ch req))
            (List.filter plain (storageReq.messages req)) sm
    /\ collectStoreMessages env (storageReq.ch req) (storageReq.messages req) w log
       = (Done sm, w1, log ++ replicate (length sm) CNowUnix)
    /\ let ch := storageReq.ch req in
       let ask := CAppendMessages (channelId ch) (channelType ch) sm in
       let results := (env ask w1).1.1 in
       let err := (env ask w1).1.2 in
       let messages :=
         if (0 <? length results)%nat
         then copyResults results (storageReq.messages req)
         else storageReq.messages req in
       let asked := log ++ replicate (length sm) CNowUnix ++ [ask] in
       processStorage1 env req w log
       = match last messages with
         | Some lastMsg =>
             let resp :=
               CStep ch (ChannelAction.mk (uniqueNo ch) ChannelActionStorageResp
                           (Index lastMsg)
                           (if is_err err then ReasonError else ReasonSuccess)
                           wkproto.ReasonUnknown 0 messages) in
             (Done tt, (env resp (env ask w1).2).2, asked ++ [resp])
         | None => (Panic index_out_of_range, (env ask w1).2, asked)
         end.
Proof.
  destruct (collectStoreMessages_run (storageReq.ch req) (storageReq.messages req) w log)
    as (sm & w1 & Hrun & Hall).
  exists sm, w1. split; [exact Hall|]. split; [exact Hrun|]. cbv zeta.
  unfold processStorage1. cbv zeta. unfold bind at 1. rewrite Hrun.
  unfold bind at 1. unfold call at 1.
  destruct (env (CAppendMessages _ _ sm) w1) as [[results err] w2]. simpl.
  unfold bind, lastOf.
  destruct (last (if (0 <? length results)%nat
                  then copyResults results (storageReq.messages req)
                  else storageReq.messages req)) as [lastMsg|]; simpl.
  - unfold ret, call. destruct (env (CStep _ _) w2) as [[] w3]. simpl.
    rewrite <- !app_assoc. reflexivity.
  - unfold panic. rewrite <- !app_assoc. reflexivity.
Qed.
End Storage.

Section CopyBack.
Import server.

Lemma with_result_twice (a b c d : Z) (msg : ReactorChannelMessage) :
  with_result a b (with_result c d msg) = with_result a b msg.
Proof. destruct msg. reflexivity. Qed.

Lemma with_result_MessageId (a b : Z) (msg : ReactorChannelMessage) :
  MessageId (with_result a b msg) = a.
Proof. reflexivity. Qed.

(** One result changes a message only if the message's id is the
    result's, and then gives it the pair. *)
Lemma assignResult_lookup (logId logIndex : Z) (msgs : list ReactorChannelMessage)
    (i : nat) (msg : ReactorChannelMessage) :
  msgs !! i = Some msg ->
  assignResult logId logIndex msgs !! i = Some msg
  \/ (MessageId msg = logId
      /\ assignResult logId logIndex msgs !! i = Some (with_result logId logIndex msg)).
Proof.
  revert i. induction msgs as [|m msgs IH]; intros i Hi; [discriminate|].
  simpl. destruct (Z.eqb_spec (MessageId m) logId) as [Heq|Hne].
  - destruct i as [|i]; simpl in *.
    + injection Hi as <-. right. split; [exact Heq | reflexivity].
    + left. exact Hi.
  - destruct i as [|i]; simpl in *.
    + left. exact Hi.
    + apply IH, Hi.
Qed.

(** The loop over the results: a message either stays as it was or
    holds the pair of a result whose id is the message's id. *)
Lemma copyResults_lookup (results : list ProposeResult) :
  forall (msgs : list ReactorChannelMessage) (i : nat) (msg : ReactorChannelMessage),
  msgs !! i = Some msg ->
  copyResults results msgs !! i = Some msg
  \/ exists r, In r results /\ MessageId msg = logId_of r
               /\ copyResults results msgs !! i
                  = Some (with_result (logId_of r) (logIndex_of r) msg).
Proof.
  induction results as [|r results IH]; intros msgs i msg Hi.
  - left. exact Hi.
  - change (copyResults (r :: results) msgs)
      with (copyResults results (assignResult (logId_of r) (logIndex_of r) msgs)).
    destruct (assignResult_lookup (logId_of r) (logIndex_of r) msgs i msg Hi)
      as [Hsame|[Hid Hnew]].
    + destruct (IH _ i msg Hsame) as [H|(r' & Hin & Hid' & H)].
      * left. exact H.
      * right. exists r'. split; [right; exact Hin|]. split; assumption.
    + destruct (IH _ i _ Hnew) as [H|(r' & Hin & Hid' & H)].
      * right. exists r. split; [left; reflexivity|]. split; assumption.
      * right. exists r'. split; [right; exact Hin|].
        rewrite with_result_MessageId in Hid'. split; [congruence|].
        rewrite H, with_result_twice. reflexivity.
Qed.

Lemma copyResults_guard (results : list ProposeResult)
    (msgs : list ReactorChannelMessage) :
  (if (0 <? length results)%nat then copyResults results msgs else msgs)
  = copyResults results msgs.
Proof. destruct results; reflexivity. Qed.
End CopyBack.

Section StorageBatches.
Import server.
Context {W : Type}.
Variable env : forall c : Call, W -> resp c * W.

Lemma Forall2_right_source {A B} (P : A -> B -> Prop) (xs : list A) (ys : list B) :
  Forall2 P xs ys -> forall y, In y ys -> exists x, In x xs /\ P x y.
Proof.
  induction 1 as [|x y xs ys Hxy _ IH]; intros y' Hin; [destruct Hin|].
  destruct Hin as [<-|Hin].
  - exists x. split; [left; reflexivity | exact Hxy].
  - destruct (IH y' Hin) as (x' & Hx' & HP). exists x'. split; [right; exact Hx' | exact HP].
Qed.

Lemma appended_app (l1 l2 : list Call) : appended (l1 ++ l2) = appended l1 ++ appended l2.
Proof. apply omap_app. Qed.

Lemma appended_clock (k : nat) : appended (replicate k CNowUnix) = [].
Proof. induction k as [|k IH]; [reflexivity | exact IH]. Qed.

Lemma stepped_app (l1 l2 : list Call) : stepped (l1 ++ l2) = stepped l1 ++ stepped l2.
Proof. apply omap_app. Qed.

Lemma stepped_clock (k : nat) : stepped (replicate k CNowUnix) = [].
Proof. induction k as [|k IH]; [reflexivity | exact IH]. Qed.

(** [processStorage] on a batch of one request is the single round. *)
Lemma processStorage_single (req : storageReq.t) (w : W) :
  (run (processStorage env [req]) w).1.1 = (processStorage1 env req w []).1.1
  /\ (run (processStorage env [req]) w).2 = (processStorage1 env req w []).2.
Proof.
  unfold run, processStorage. simpl. unfold bind, ret.
  destruct (processStorage1 env req w []) as [[[[]|why] w'] log']; split; reflexivity.
Qed.

(** A batch is worked off request by request; a panic ends it. *)
Lemma processStorage_cons (req : storageReq.t) (rest : list storageReq.t)
    (w : W) (log : list Call) :
  processStorage env (req :: rest) w log
  = match processStorage1 env req w log with
    | (Done _, w', log') => processStorage env rest w' log'
    | (Panic why, w', log') => (Panic why, w', log')
    end.
Proof. reflexivity. Qed.

(** Whatever the batch, every call of [store.AppendMessages] is for one
    of its requests. *)
Lemma processStorage_appended (reqs : list storageReq.t) :
  forall (w : W) (log : list Call),
  exists entries,
    appended (processStorage env reqs w log).2 = appended log ++ entries
    /\ Forall (fun e => exists req, In req reqs /\ appended_for req e) entries.
Proof.
  induction reqs as [|req rest IH]; intros w log.
  - exists []. split; [simpl; rewrite app_nil_r; reflexivity | constructor].
  - rewrite processStorage_cons.
    destruct (processStorage1_run env req w log) as (sm & w1 & Hall & _ & Hrun).
    cbv zeta in Hrun. rewrite Hrun.
    set (e := (channelId (storageReq.ch req), channelType (storageReq.ch req), sm)).
    assert (He : appended_for req e) by (repeat split; exact Hall).
    destruct (last _) as [lastMsg|].
    + cbv zeta.
      match goal with |- context [processStorage env rest ?w' ?log'] =>
        destruct (IH w' log') as (entries & Happ & Hok) end.
      exists (e :: entries). split.
      * rewrite Happ, !appended_app, appended_clock. simpl.
        rewrite app_nil_r, <- app_assoc. reflexivity.
      * constructor; [exists req; split; [left; reflexivity | exact He]|].
        eapply Forall_impl; [exact Hok|].
        intros e' (req' & Hin & He'). exists req'. split; [right; exact Hin | exact He'].
    + exists [e]. split.
      * simpl. rewrite !appended_app, appended_clock. reflexivity.
      * constructor; [|constructor]. exists req. split; [left; reflexivity | exact He].
Qed.

(** C7.  For a storage request, [store.AppendMessages] is called once,
    for the request's channel, with one record for each message whose
    [IsEncrypt] flag is false, in the order of the request, so that
    every record stems from a message that is not encrypted; and in a
    batch of requests every call of [store.AppendMessages] is such a
    call for one of the requests. *)
Theorem storage_appends_unencrypted (req : storageReq.t)
    (reqs : list storageReq.t) (w : W) :
  (exists e,
     appended (run (processStorage env [req]) w).2 = [e]
     /\ appended_for req e
     /\ Forall (fun s => exists msg, In msg (storageReq.messages req)
                                     /\ IsEncrypt msg = false
                                     /\ stored_from (storageReq.ch req) msg s) e.2)
  /\ Forall (fun e => exists req', In req' reqs /\ appended_for req' e)
            (appended (run (processStorage env reqs) w).2).
Proof.
  split.
  - destruct (processStorage_single req w) as [_ ->].
    destruct (processStorage1_run env req w []) as (sm & w1 & Hall & _ & Hrun).
    cbv zeta in Hrun.
    exists (channelId (storageReq.ch req), channelType (storageReq.ch req), sm).
    split; [|split; [repeat split; exact Hall|]].
    + rewrite Hrun.
      destruct (last _) as [lastMsg|]; simpl;
        rewrite ?appended_app, appended_clock; reflexivity.
    + apply List.Forall_forall. intros s Hs.
      destruct (Forall2_right_source _ _ _ Hall s Hs) as (msg & Hin & Hfrom).
      apply List.filter_In in Hin as [Hin Hplain].
      exists msg. split; [exact Hin|]. split; [|exact Hfrom].
      unfold notEncrypted in Hplain.
      destruct (IsEncrypt msg); [discriminate|reflexivity].
  - unfold run. destruct (processStorage_appended reqs w []) as (entries & -> & Hok).
    exact Hok.
Qed.

(** C6.  For a storage request, the messages that the StorageResp
    action carries are the request's messages after the copy-back of
    the results that [store.AppendMessages] returned: a message either
    is unchanged or holds the pair (logId, logIndex) of a result whose
    logId is the message's [MessageId]; a message whose [MessageId] is
    the logId of no result is unchanged.  Here [sm] and [w1] are the
    records and the state with which the first loop ends, so [results]
    is what the store returns for the request. *)
Theorem storage_copies_result_on_match (req : storageReq.t) (w : W)
    (i : nat) (msg : ReactorChannelMessage) :
  storageReq.messages req !! i = Some msg ->
  let ch := storageReq.ch req in
  exists (sm : list wkdb.Message) (w1 : W) (lastMsg : ReactorChannelMessage)
         (reason : Reason),
    collectStoreMessages env ch (storageReq.messages req) w []
    = (Done sm, w1, replicate (length sm) CNowUnix)
    /\ let results := (env (CAppendMessages (channelId ch) (channelType ch) sm) w1).1.1 in
       let messages := copyResults results (storageReq.messages req) in
       stepped (run (processStorage env [req]) w).2
       = [(ch, ChannelAction.mk (uniqueNo ch) ChannelActionStorageResp (Index lastMsg)
                 reason wkproto.ReasonUnknown 0 messages)]
       /\ length messages = length (storageReq.messages req)
       /\ (messages !! i = Some msg
           \/ exists r, In r results /\ MessageId msg = logId_of r
                        /\ messages !! i
                           = Some (with_result (logId_of r) (logIndex_of r) msg))
       /\ ((forall r, In r results -> MessageId msg <> logId_of r) ->
           messages !! i = Some msg).
Proof.
  intros Hi. cbv zeta. destruct (processStorage_single req w) as [_ ->].
  destruct (processStorage1_run env req w []) as (sm & w1 & _ & Hcollect & Hrun).
  cbv zeta in Hrun. rewrite copyResults_guard in Hrun.
  set (ask := CAppendMessages (channelId (storageReq.ch req))
                (channelType (storageReq.ch req)) sm) in *.
  set (results := (env ask w1).1.1) in *.
  pose proof (copyResults_lookup results _ i msg Hi) as Hlookup.
  destruct (last (copyResults results (storageReq.messages req))) as [lastMsg|] eqn:Hlast.
  - exists sm, w1, lastMsg,
      (if is_err (env ask w1).1.2 then ReasonError else ReasonSuccess).
    fold ask. fold results. split; [exact Hcollect|]. split; [|split; [|split]].
    + rewrite Hrun. simpl. rewrite !stepped_app, stepped_clock. reflexivity.
    + apply copyResults_length.
    + exact Hlookup.
    + intros Hnone. destruct Hlookup as [H|(r & Hin & Hid & _)]; [exact H|].
      destruct (Hnone r Hin Hid).
  - apply last_None in Hlast.
    apply (f_equal length) in Hlast. rewrite copyResults_length in Hlast.
    apply lookup_lt_Some in Hi. simpl in Hlast. lia.
Qed.
End StorageBatches.

(** A request with a plain message 11 and a message 12 that is still
    encrypted: the store gets message 11 alone and numbers it 100; the
    response carries message 11 with [MessageSeq] 100 and message 12 as
    it was. *)
Example storage_round_trip :
  let req := server.storageReq.mk (scenarios.group false)
               [scenarios.message 11 4 false; scenarios.message 12 5 true] in
  let out := server.run (server.processStorage scenarios.env_online [req]) tt in
  server.appended out.2
  = [("g1", 2, [server.storeMessage (scenarios.group false) 1700000000
                  (scenarios.message 11 4 false)])]
  /\ server.stepped out.2
     = [(scenarios.group false,
         server.ChannelAction.mk "n1" server.ChannelActionStorageResp 5
           server.ReasonSuccess wkproto.ReasonUnknown 0
           [server.with_result 11 100 (scenarios.message 11 4 false);
            scenarios.message 12 5 true])].
Proof. vm_compute. split; reflexivity. Qed.

(** The encrypted message 12 of that request, at index 1. *)
Lemma storage_copies_result_on_match_witness :
  let req := server.storageReq.mk (scenarios.group false)
               [scenarios.message 11 4 false; scenarios.message 12 5 true] in
  server.storageReq.messages req !! 1%nat = Some (scenarios.message 12 5 true)
  /\ exists a : server.ChannelAction.t,
       server.stepped (server.run (server.processStorage scenarios.env_online [req]) tt).2
       = [(scenarios.group false, a)]
       /\ length (server.ChannelAction.Messages a) = 2%nat.
Proof.
  split; [reflexivity|].
  destruct (storage_copies_result_on_match scenarios.env_online
              (server.storageReq.mk (scenarios.group false)
                 [scenarios.message 11 4 false; scenarios.message 12 5 true])
              tt 1%nat (scenarios.message 12 5 true) eq_refl)
    as (sm & w1 & lastMsg & reason & _ & Hstep & Hlen & _).
  eexists. split; [exact Hstep | exact Hlen].
Defined.
